(** * wrapcli-termux: the streaming response engine and the context store

    A shallow embedding of the parts of [simpl_cli/customization.py] and
    [simpl_cli/app.py] that implement the rolling display buffer
    ([LiveMarkdownStreamRenderer]), the stream session with cancellation and
    resume ([StreamingUIManager]), the bounded context store
    ([ContextManager]) and the event-stream chunk source
    ([HybridShell.create_api_streaming_generator]).

    Python values are modelled as follows.
    - A [str] is the list of its Unicode code points, so that [len], slicing
      and [startswith] count what Python counts.
    - A Python list is a [list]; negative slice bounds are written out.
    - The dictionaries with a fixed set of keys (context entries, messages,
      the cancelled-stream state) are records; [None] is [option].
    - Calls into the presentation library (rich's Live, Progress, Panel,
      Markdown) display values and are left out, as is the
      estimated-total-words figure, which only feeds the progress bar; with
      one exception.  A [str] that is printed, or shown in a panel, is read
      as console markup, and rich raises [MarkupError] when it cannot be
      read, for instance at a closing tag that closes nothing.  Where the
      text contains data of the run (a prompt, the description of an
      exception) the embedding asks the markup reader, which is a variable
      of the development like [json.loads]. *)

From Stdlib Require Import Ascii String.
From Stdlib Require Import List ZArith NArith QArith Lia Bool.
From Stdlib Require Import Permutation Sorted DecimalString.
Import ListNotations.

Local Open Scope string_scope.
Local Open Scope list_scope.

Local Open Scope nat_scope.

(** ** Python strings *)

Module Py.

(** A code point. *)
Definition char := N.

Definition str := list char.

(** An ASCII literal as a Python string. *)
Definition lit (s : string) : str :=
  List.map N_of_ascii (list_ascii_of_string s).

(** The line feed character. *)
Definition NL : char := 10%N.

Definition char_eqb (a b : char) : bool := N.eqb a b.

Fixpoint str_eqb (a b : str) : bool :=
  match a, b with
  | [], [] => true
  | x :: a', y :: b' => char_eqb x y && str_eqb a' b'
  | _, _ => false
  end.

(** [not s] is false exactly on non-empty strings. *)
Definition truthy (s : str) : bool :=
  match s with [] => false | _ :: _ => true end.

(** [c in s] for a single character [c]. *)
Definition mem_char (c : char) (s : str) : bool := existsb (char_eqb c) s.

(** [s.startswith(p)] *)
Fixpoint startswith (p s : str) : bool :=
  match p, s with
  | [], _ => true
  | x :: p', y :: s' => char_eqb x y && startswith p' s'
  | _ :: _, [] => false
  end.

(** [needle in hay] for strings (substring test). *)
Fixpoint contains (needle hay : str) : bool :=
  startswith needle hay ||
  match hay with
  | [] => false
  | _ :: hay' => contains needle hay'
  end.

(** [str.isspace] on one code point: the characters CPython's
    [_PyUnicode_IsWhitespace] accepts. *)
Definition isspace (c : char) : bool :=
  ((9 <=? c) && (c <=? 13) || (28 <=? c) && (c <=? 32) || (c =? 133)
   || (c =? 160) || (c =? 5760) || (8192 <=? c) && (c <=? 8202)
   || (c =? 8232) || (c =? 8233) || (c =? 8239) || (c =? 8287)
   || (c =? 12288))%N.

(** [s.split(sep)] for a one-character separator: never empty, one more
    piece than there are separators. *)
Fixpoint split_on (sep : char) (s : str) : list str :=
  match s with
  | [] => [[]]
  | c :: s' =>
      if char_eqb c sep then [] :: split_on sep s'
      else match split_on sep s' with
           | w :: ws => (c :: w) :: ws
           | [] => [[c]]
           end
  end.

(** [s.split()] with no argument: the maximal runs of non-whitespace. *)
Fixpoint split (s : str) : list str :=
  match s with
  | [] => []
  | c :: s' =>
      if isspace c then split s'
      else match s' with
           | [] => [[c]]
           | d :: _ =>
               if isspace d then [c] :: split s'
               else match split s' with
                    | w :: ws => (c :: w) :: ws
                    | [] => [[c]]
                    end
           end
  end.

Fixpoint lstrip (s : str) : str :=
  match s with
  | [] => []
  | c :: s' => if isspace c then lstrip s' else s
  end.

Definition rstrip (s : str) : str := rev (lstrip (rev s)).

(** [s.strip()] *)
Definition strip (s : str) : str := rstrip (lstrip s).

(** [sep.join(l)] *)
Fixpoint join (sep : str) (l : list str) : str :=
  match l with
  | [] => []
  | [x] => x
  | x :: rest => x ++ sep ++ join sep rest
  end.

(** [l[i:]], for any integer [i]: a negative bound counts from the end
    and is clamped at the start of the list. *)
Definition slice_from {A} (i : Z) (l : list A) : list A :=
  let n := Z.of_nat (length l) in
  let start := if (i <? 0)%Z then Z.max (n + i) 0 else Z.min i n in
  skipn (Z.to_nat start) l.

(** [l[:n]] for a literal [n >= 0]. *)
Definition slice_to {A} (n : nat) (l : list A) : list A := firstn n l.

(** [l[a:b]] for literals [0 <= a], [0 <= b]. *)
Definition slice {A} (a b : nat) (l : list A) : list A :=
  skipn a (firstn b l).

(** [l[:-1]] and [l[-1]] on a non-empty list. *)
Definition all_but_last {A} (l : list A) : list A := removelast l.
Definition last_item (l : list str) : str := last l [].

End Py.

Import Py.

(** ** The rolling buffer: [LiveMarkdownStreamRenderer] *)

(** The cursor glyph U+258A appended to the line in progress. *)
Definition CURSOR : char := 9610%N.

(** U+1F914, the first character of the connecting placeholder. *)
Definition THINKING_FACE : char := 129300%N.

Definition CONNECTING_PLACEHOLDER : str :=
  [THINKING_FACE] ++ lit " Connecting to AI..." ++ [CURSOR].

Record LiveMarkdownStreamRenderer := mkRenderer {
  max_visible_lines : Z;
  rolling_buffer : list str;
  full_content : str;
  current_line : str;
  word_count : nat
}.

(** [__init__], with the constructor's [max_visible_lines] argument. *)
Definition new_renderer (max_lines : Z) : LiveMarkdownStreamRenderer :=
  mkRenderer max_lines [] [] [] 0.

Definition reset (r : LiveMarkdownStreamRenderer) : LiveMarkdownStreamRenderer :=
  mkRenderer (max_visible_lines r) [] [] [] 0.

Definition add_chunk (r : LiveMarkdownStreamRenderer) (chunk : str)
  : LiveMarkdownStreamRenderer :=
  let full := full_content r ++ chunk in
  let cur := current_line r ++ chunk in
  let wc := length (split full) in
  let '(buf, cur) :=
    if mem_char NL cur then
      let lines := split_on NL cur in
      (rolling_buffer r ++ all_but_last lines, last_item lines)
    else (rolling_buffer r, cur) in
  let buf :=
    if (Z.of_nat (length buf) >? max_visible_lines r)%Z
    then slice_from (- max_visible_lines r) buf
    else buf in
  mkRenderer (max_visible_lines r) buf full cur wc.

(** The lines shown by the live view, before they are joined. *)
Definition display_lines (r : LiveMarkdownStreamRenderer) : list str :=
  let lines := rolling_buffer r in
  let lines :=
    if truthy (current_line r) then lines ++ [current_line r ++ [CURSOR]]
    else lines in
  slice_from (- max_visible_lines r) lines.

(** The text handed to the Markdown widget by [get_streaming_content]. *)
Definition get_streaming_content (r : LiveMarkdownStreamRenderer) : str :=
  let buffer_content := join [NL] (display_lines r) in
  if truthy (strip buffer_content) then buffer_content
  else CONNECTING_PLACEHOLDER.

(** The text handed to the Markdown widget by [get_final_content]. *)
Definition get_final_content (r : LiveMarkdownStreamRenderer) : str :=
  full_content r.

Definition get_word_count (r : LiveMarkdownStreamRenderer) : nat :=
  word_count r.

(** Feeding fragments in arrival order. *)
Definition add_chunks (r : LiveMarkdownStreamRenderer) (chunks : list str)
  : LiveMarkdownStreamRenderer :=
  fold_left add_chunk chunks r.

(** The fragments of the scenario of the specification. *)
Definition scenario_fragments : list str :=
  [lit "Hello "; lit "world" ++ [NL]; lit "second "; lit "line"].

(** The lines [add_chunk] completes when [chunk] arrives. *)
Definition completed_by (r : LiveMarkdownStreamRenderer) (chunk : str) : list str :=
  if mem_char NL (current_line r ++ chunk)
  then all_but_last (split_on NL (current_line r ++ chunk))
  else [].

(** No stored line and no line in progress holds a line feed. *)
Definition lines_clean (r : LiveMarkdownStreamRenderer) : Prop :=
  Forall (fun line => mem_char NL line = false) (rolling_buffer r)
  /\ mem_char NL (current_line r) = false.

(** ** Configuration: [Config] *)

Module Config.
Definition MAX_SHELL_CONTEXT : nat := 10.
Definition MAX_CONVERSATION_HISTORY : nat := 20.
Definition CONTEXT_FOR_AI : nat := 5.
End Config.

(** ** The context store: [ContextManager] *)

(** One shell interaction.  [epoch_time] is [datetime.now().timestamp()],
    kept as a count of microseconds: only its order is used. *)
Record ContextEntry := mkEntry {
  timestamp : str;
  command : str;
  output : str;
  cwd : str;
  epoch_time : Z
}.

(** A role-tagged message of the conversation. *)
Record Message := mkMessage {
  role : str;
  content : str
}.

Record ContextManager := mkContext {
  shell_context : list ContextEntry;
  conversation_history : list Message
}.

Definition new_context_manager : ContextManager := mkContext [] [].

(** What [add_shell_context] reads from the process when it runs: the
    clock, formatted and as an epoch, and the working directory. *)
Record Surroundings := mkSurroundings {
  clock_hms : str;
  getcwd : str;
  clock_epoch : Z
}.

(** [list.pop(0)] on a non-empty list. *)
Definition pop0 {A} (l : list A) : list A := tl l.

Definition add_shell_context (cm : ContextManager) (env : Surroundings)
  (cmd out : str) : ContextManager :=
  let context_entry := mkEntry (clock_hms env) cmd out (getcwd env) (clock_epoch env) in
  let ctx := shell_context cm ++ [context_entry] in
  let ctx :=
    if Config.MAX_SHELL_CONTEXT <? length ctx then pop0 ctx else ctx in
  mkContext ctx (conversation_history cm).

(** [sorted(l, key=epoch_time, reverse=True)]: a stable sort, largest key
    first, entries with equal keys in their original order. *)
Fixpoint insert_desc (x : ContextEntry) (l : list ContextEntry)
  : list ContextEntry :=
  match l with
  | [] => [x]
  | y :: l' =>
      if (epoch_time x <? epoch_time y)%Z then y :: insert_desc x l'
      else x :: l
  end.

Definition sorted_recent_first (l : list ContextEntry) : list ContextEntry :=
  fold_right insert_desc [] l.

(** [str(n)] for a natural number. *)
Definition str_of_nat (n : nat) : str :=
  lit (NilEmpty.string_of_uint (Nat.to_uint n)).

(** U+1F525, U+1F4CB and U+1F4A1, which open the section headings. *)
Definition FIRE : char := 128293%N.
Definition CLIPBOARD : char := 128203%N.
Definition BULB : char := 128161%N.

Definition TRUNCATED_SUFFIX : str := lit "... (truncated)".

(** The body of [for i, entry in enumerate(priority_contexts)], from
    index [i] on. *)
Fixpoint render_priority (i : nat) (entries : list ContextEntry) : list str :=
  match entries with
  | [] => []
  | entry :: rest =>
      let priority_marker :=
        if i =? 0 then lit ">>> LATEST:"
        else lit ">>> #" ++ str_of_nat (i + 1) ++ lit ":" in
      let head :=
        [ [NL] ++ priority_marker ++ lit " [" ++ timestamp entry
            ++ lit "] In: " ++ cwd entry;
          lit "Command: " ++ command entry ] in
      let out_part :=
        if truthy (output entry) then
          let max_length := if i =? 0 then 800 else 400 in
          let out :=
            if max_length <? length (output entry)
            then slice_to max_length (output entry) ++ TRUNCATED_SUFFIX
            else output entry in
          [ lit "Output: " ++ out ]
        else [] in
      head ++ out_part ++ [ repeat 45%N 50 ] ++ render_priority (S i) rest
  end.

(** The body of [for entry in older_contexts]. *)
Definition render_older (entry : ContextEntry) : str :=
  lit "[" ++ timestamp entry ++ lit "] " ++ command entry ++ lit " -> "
    ++ slice_to 100 (output entry) ++ lit "...".

Definition CONTEXT_HEADER : str :=
  lit "Recent shell activity (prioritized by recency):".
Definition PRIORITY_HEADING : str :=
  [NL; FIRE] ++ lit " MOST RECENT COMMANDS:".
Definition OLDER_HEADING : str :=
  [NL; CLIPBOARD] ++ lit " ADDITIONAL CONTEXT (older commands):".
Definition CLOSING_NOTE : str :=
  [NL; BULB] ++ lit " NOTE: When user asks about errors or issues, prioritize the LATEST/MOST RECENT commands above.".

Definition build_context_for_ai (cm : ContextManager) : str :=
  match shell_context cm with
  | [] => []
  | _ :: _ =>
      let recent_contexts := sorted_recent_first (shell_context cm) in
      let context_parts := [CONTEXT_HEADER] in
      let priority_contexts := slice_to 3 recent_contexts in
      let context_parts :=
        match priority_contexts with
        | [] => context_parts
        | _ :: _ =>
            context_parts ++ [PRIORITY_HEADING]
              ++ render_priority 0 priority_contexts
        end in
      let older_contexts := slice 3 Config.CONTEXT_FOR_AI recent_contexts in
      let context_parts :=
        match older_contexts with
        | [] => context_parts
        | _ :: _ =>
            context_parts ++ [OLDER_HEADING] ++ List.map render_older older_contexts
        end in
      join [NL] (context_parts ++ [CLOSING_NOTE])
  end.

Definition add_conversation (cm : ContextManager) (user_msg ai_response : str)
  : ContextManager :=
  let hist :=
    conversation_history cm
      ++ [mkMessage (lit "user") user_msg; mkMessage (lit "assistant") ai_response] in
  let hist :=
    if Config.MAX_CONVERSATION_HISTORY <? length hist
    then slice_from (- Z.of_nat Config.MAX_CONVERSATION_HISTORY) hist
    else hist in
  mkContext (shell_context cm) hist.

(** Inserting a sequence of shell interactions, oldest first. *)
Definition add_shell_contexts (cm : ContextManager)
  (runs : list (Surroundings * (str * str))) : ContextManager :=
  fold_left (fun cm run => add_shell_context cm (fst run) (fst (snd run)) (snd (snd run)))
    runs cm.

(** The entry a shell interaction is recorded as. *)
Definition entry_of (run : Surroundings * (str * str)) : ContextEntry :=
  mkEntry (clock_hms (fst run)) (fst (snd run)) (snd (snd run))
    (getcwd (fst run)) (clock_epoch (fst run)).

(** [earlier] is ranked no later than [later]. *)
Definition no_older (earlier later : ContextEntry) : Prop :=
  (epoch_time later <= epoch_time earlier)%Z.

(** Twelve shell interactions whose recorded clock runs backwards: the
    first inserted carries the largest [epoch_time]. *)
Definition twelve_runs : list (Surroundings * (str * str)) :=
  List.map (fun i => (mkSurroundings (lit "12:00:00") (lit "/home")
                                     (1000 - Z.of_nat i),
                      (lit "cmd" ++ str_of_nat i, lit "out")))
           (seq 0 12).

(** *** The context summary as the specification words it

    The entries are ranked by [epoch_time], most recent first.  Ranks 1 to 3
    are shown in full, the output cut at 800 characters for rank 1 and at
    400 for ranks 2 and 3; ranks 4 to [CONTEXT_FOR_AI] are one line each,
    the output cut at 100 characters. *)

Definition spec_cut (limit : nat) (out : str) : str :=
  if length out <=? limit then out else firstn limit out ++ TRUNCATED_SUFFIX.

Definition spec_marker (rank : nat) : str :=
  match rank with
  | 1 => lit ">>> LATEST:"
  | _ => lit ">>> #" ++ str_of_nat rank ++ lit ":"
  end.

Definition spec_full_detail (rank limit : nat) (e : option ContextEntry)
  : list str :=
  match e with
  | None => []
  | Some e =>
      [ [NL] ++ spec_marker rank ++ lit " [" ++ timestamp e ++ lit "] In: " ++ cwd e;
        lit "Command: " ++ command e ]
      ++ match output e with
         | [] => []
         | _ :: _ => [ lit "Output: " ++ spec_cut limit (output e) ]
         end
      ++ [ repeat 45%N 50 ]
  end.

Definition spec_one_line (e : ContextEntry) : str :=
  lit "[" ++ timestamp e ++ lit "] " ++ command e ++ lit " -> "
    ++ firstn 100 (output e) ++ lit "...".

(** Ranks [lo] to [hi], both included, of a ranked list. *)
Definition spec_ranks (lo hi : nat) (ranked : list ContextEntry)
  : list ContextEntry :=
  flat_map (fun rank => match nth_error ranked (rank - 1) with
                        | Some e => [e]
                        | None => []
                        end)
           (seq lo (S hi - lo)).

Definition spec_buildAIContext (entries : list ContextEntry) : str :=
  match entries with
  | [] => []
  | _ :: _ =>
      let ranked := sorted_recent_first entries in
      let summaries := List.map spec_one_line (spec_ranks 4 Config.CONTEXT_FOR_AI ranked) in
      join [NL]
        ([CONTEXT_HEADER; PRIORITY_HEADING]
         ++ spec_full_detail 1 800 (nth_error ranked 0)
         ++ spec_full_detail 2 400 (nth_error ranked 1)
         ++ spec_full_detail 3 400 (nth_error ranked 2)
         ++ match summaries with
            | [] => []
            | _ :: _ => OLDER_HEADING :: summaries
            end
         ++ [CLOSING_NOTE])
  end.

(** ** Values and exceptions of the chunk source *)

#[local] Set Warnings "-register-all".

(** What [json.loads] returns.  A [dict] is an association list read with
    first-match lookup; a number is kept as a rational. *)
Inductive json :=
| JNull
| JBool (b : bool)
| JNum (q : Q)
| JStr (s : str)
| JArr (items : list json)
| JObj (fields : list (str * json)).

(** The places where the interpreter itself raises while a decoded frame
    is taken apart or a fragment is appended, each with the offending
    value. *)
Inductive interp_fault :=
| NotAContainer (v : json)     (* ['choices' in v], TypeError *)
| BadSubscript (v : json)      (* [v['choices']] or [v['messages']], TypeError *)
| NoLength (v : json)          (* [len(v)], TypeError *)
| NoSuchKey (v : json)         (* [v[0]] or [v['choices']] on a dict, KeyError *)
| NoGetMethod (v : json)       (* [v.get], AttributeError *)
| NotAString (v : json).       (* [str += v], TypeError *)

(** An exception of class [Exception].  A transport or decoding failure
    comes with its description, which is what [str(e)] returns, and so
    does rich's [MarkupError]. *)
Inductive exn :=
| Failure (desc : str)
| Interp (f : interp_fault)
| MarkupError (desc : str).

(** What [json.loads] does with a text: it returns the decoded value,
    raises [json.JSONDecodeError], or raises another exception (a
    [RecursionError] on deep nesting, a [ValueError] on a number with too
    many digits), given by its description. *)
Inductive loads_outcome :=
| Decoded (v : json)
| JSONDecodeError
| LoadsRaises (desc : str).

(** How a call ends: it returns a value or raises an exception. *)
Inductive outcome (A : Type) :=
| Returns (a : A)
| Raises (e : exn).
Arguments Returns {A} a.
Arguments Raises {A} e.

(** What pulling from a fragment producer can do: hand over a value, raise
    an [Exception], or be cut short by the user's [KeyboardInterrupt]
    (which is not an [Exception]).  A producer is the list of these
    events up to its end. *)
Inductive event :=
| Yield (v : json)
| Raise (e : exn)
| KeyboardInterrupt.

(** One turn of [for line in response.iter_lines()] together with
    [line.decode('utf-8')]: either a line, given by its decoded text, or
    a failure of the transport or of the decoding. *)
Inductive wire_item :=
| Delivered (text : str)
| Broken (desc : str).

(** The answer to [requests.post] followed by [raise_for_status]. *)
Inductive http_attempt :=
| OpenFails (desc : str)
| Opened (items : list wire_item).

(** Results of operations that may raise. *)
Inductive result (A : Type) :=
| Ok (a : A)
| Err (f : interp_fault).
Arguments Ok {A} a.
Arguments Err {A} f.

Definition bind {A B} (m : result A) (k : A -> result B) : result B :=
  match m with
  | Ok a => k a
  | Err f => Err f
  end.

Notation "x <- m ;; k" := (bind m (fun x => k))
  (at level 61, m at next level, right associativity).

Fixpoint lookup (key : str) (fields : list (str * json)) : option json :=
  match fields with
  | [] => None
  | (k, v) :: rest => if str_eqb k key then Some v else lookup key rest
  end.

(** [key in v] *)
Definition py_in (key : str) (v : json) : result bool :=
  match v with
  | JObj fields => Ok (match lookup key fields with Some _ => true | None => false end)
  | JStr s => Ok (contains key s)
  | JArr items =>
      Ok (existsb (fun x => match x with JStr s => str_eqb s key | _ => false end) items)
  | _ => Err (NotAContainer v)
  end.

(** [v[key]] for a string key *)
Definition getitem (v : json) (key : str) : result json :=
  match v with
  | JObj fields =>
      match lookup key fields with
      | Some x => Ok x
      | None => Err (NoSuchKey v)
      end
  | _ => Err (BadSubscript v)
  end.

(** [len(v)] *)
Definition py_len (v : json) : result nat :=
  match v with
  | JStr s => Ok (length s)
  | JArr items => Ok (length items)
  | JObj fields => Ok (length fields)
  | _ => Err (NoLength v)
  end.

(** [v[0]], used on values of positive length only.  The keys of a decoded
    object are strings, so the integer key is never found. *)
Definition getitem0 (v : json) : result json :=
  match v with
  | JArr (x :: _) => Ok x
  | JStr (c :: _) => Ok (JStr [c])
  | JObj _ => Err (NoSuchKey v)
  | _ => Err (BadSubscript v)
  end.

(** [v.get(key, default)] *)
Definition dict_get (v : json) (key : str) (default : json) : result json :=
  match v with
  | JObj fields =>
      Ok (match lookup key fields with Some x => x | None => default end)
  | _ => Err (NoGetMethod v)
  end.

(** Truth value of a decoded value, as [if content:] tests it. *)
Definition json_truthy (v : json) : bool :=
  match v with
  | JNull => false
  | JBool b => b
  | JNum q => negb (Qeq_bool q 0)
  | JStr s => truthy s
  | JArr items => match items with [] => false | _ => true end
  | JObj fields => match fields with [] => false | _ => true end
  end.

(** The body of the inner [try] after [json.loads]: the value to yield,
    if any. *)
Definition delta_content (chunk_data : json) : result (option json) :=
  present <- py_in (lit "choices") chunk_data ;;
  if negb present then Ok None else
  choices <- getitem chunk_data (lit "choices") ;;
  n <- py_len choices ;;
  if n =? 0 then Ok None else
  first <- getitem0 choices ;;
  delta <- dict_get first (lit "delta") (JObj []) ;;
  piece <- dict_get delta (lit "content") (JStr []) ;;
  Ok (if json_truthy piece then Some piece else None).

(** U+274C, and U+26A0 followed by U+FE0F: the marks that open the
    results which are not answers. *)
Definition CROSS_MARK : str := [10060%N].
Definition WARNING_SIGN : str := [9888%N; 65039%N].

Definition RESPONSE_CANCELLED : str := WARNING_SIGN ++ lit " Response cancelled".
Definition RESUME_CANCELLED : str := WARNING_SIGN ++ lit " Resume cancelled".
Definition NO_CANCELLED_STREAM : str :=
  CROSS_MARK ++ lit " No cancelled stream to resume".

(** The cancelled-stream state kept by [StreamingUIManager]. *)
Record CancelledState := mkCancelled {
  snap_user_message : str;
  snap_partial_content : str;
  snap_messages : list Message;
  snap_timestamp : str;
  snap_word_count : nat
}.

Record StreamingUIManager := mkUI {
  markdown_renderer : LiveMarkdownStreamRenderer;
  cancelled_stream_state : option CancelledState
}.

(** [__init__]: a renderer with the default of 20 visible lines. *)
Definition new_streaming_ui : StreamingUIManager :=
  mkUI (new_renderer 20) None.

Definition with_renderer (ui : StreamingUIManager)
  (r : LiveMarkdownStreamRenderer) : StreamingUIManager :=
  mkUI r (cancelled_stream_state ui).

(** [now] is [datetime.now().isoformat()]. *)
Definition save_cancelled_state (ui : StreamingUIManager) (now : str)
  (user_msg partial : str) (msgs : list Message) : StreamingUIManager :=
  mkUI (markdown_renderer ui)
       (Some (mkCancelled user_msg partial msgs now
                          (get_word_count (markdown_renderer ui)))).

Definition has_cancelled_stream (ui : StreamingUIManager) : bool :=
  match cancelled_stream_state ui with
  | Some _ => true
  | None => false
  end.

Definition clear_cancelled_state (ui : StreamingUIManager) : StreamingUIManager :=
  mkUI (markdown_renderer ui) None.

(** How a pull loop over a producer is left. *)
Inductive loop_exit :=
| Exhausted
| Interrupted
| Faulted (e : exn).

(** [for chunk in api_call_func(): self.markdown_renderer.add_chunk(chunk)].
    A yielded value that is not a [str] makes [str += chunk] raise before
    anything is stored. *)
Fixpoint pull_loop (r : LiveMarkdownStreamRenderer) (src : list event)
  : LiveMarkdownStreamRenderer * loop_exit :=
  match src with
  | [] => (r, Exhausted)
  | Yield (JStr chunk) :: rest => pull_loop (add_chunk r chunk) rest
  | Yield v :: _ => (r, Faulted (Interp (NotAString v)))
  | Raise e :: _ => (r, Faulted e)
  | KeyboardInterrupt :: _ => (r, Interrupted)
  end.

(** The live views shown while the loop runs, one after each fragment. *)
Fixpoint live_views (r : LiveMarkdownStreamRenderer) (src : list event)
  : list str :=
  match src with
  | Yield (JStr chunk) :: rest =>
      let r' := add_chunk r chunk in
      get_streaming_content r' :: live_views r' rest
  | _ => []
  end.

(** The user's interrupt, if any, arrives while the loop waits for what
    follows the first [k] events of the producer. *)
Definition with_interrupt (ctrl_c : option nat) (src : list event) : list event :=
  match ctrl_c with
  | Some k => if k <=? length src then firstn k src ++ [KeyboardInterrupt] else src
  | None => src
  end.

(** What one exchange meets outside the program: the server's answer, the
    user's interrupt and the clock read when a stream is cancelled. *)
Record Exchange := mkExchange {
  http : http_attempt;
  ctrl_c : option nat;
  now_iso : str
}.

Record HybridShell := mkShell {
  streaming_ui : StreamingUIManager;
  context_manager : ContextManager
}.

Definition new_shell : HybridShell := mkShell new_streaming_ui new_context_manager.

Definition SYSTEM_PROMPT_HEAD : str :=
  lit "You are a helpful AI assistant integrated with a shell environment. ".
Definition SYSTEM_PROMPT_TAIL : str :=
  [NL; NL] ++ lit "Use this context to provide relevant answers about files, directories, or commands the user has executed.".

(** The message list [stream_ai_response] sends. *)
Definition build_messages (cm : ContextManager) (user_msg : str) : list Message :=
  let context := build_context_for_ai cm in
  (if truthy context
   then [mkMessage (lit "system") (SYSTEM_PROMPT_HEAD ++ context ++ SYSTEM_PROMPT_TAIL)]
   else [])
  ++ conversation_history cm
  ++ [mkMessage (lit "user") user_msg].

(** [response and not response.startswith(CROSS_MARK) and not
    response.startswith(WARNING_SIGN)] *)
Definition is_answer (response : str) : bool :=
  truthy response && negb (startswith CROSS_MARK response)
    && negb (startswith WARNING_SIGN response).

(** String fragments as the events of a producer. *)
Definition fragments (chunks : list str) : list event :=
  List.map (fun chunk => Yield (JStr chunk)) chunks.

(** Whether a yielded value is a [str]. *)
Definition is_string (v : json) : bool :=
  match v with
  | JStr _ => true
  | _ => false
  end.

(** [s[:n] + ('...' if len(s) > n else '')] *)
Definition shortened (n : nat) (s : str) : str :=
  slice_to n s ++ (if n <? length s then lit "..." else []).

Definition BULLET : char := 8226%N.

(** The text of the panel printed by
    [UIManager.show_cancelled_stream_notification]. *)
Definition show_cancelled_stream_notification (user_message : str) : str :=
  WARNING_SIGN ++ lit " [yellow]AI response cancelled[/yellow]" ++ [NL; NL]
  ++ lit "[cyan]Original question:[/cyan] " ++ shortened 80 user_message ++ [NL; NL]
  ++ lit "[green]To resume:[/green]" ++ [NL]
  ++ [BULLET] ++ lit " Press [bold]Alt+Z[/bold] or type [bold]resume[/bold]" ++ [NL]
  ++ [BULLET] ++ lit " Type [bold]cancelstate[/bold] to see details" ++ [NL; NL]
  ++ lit "[dim]Partial response has been saved for resume[/dim]".

(** The text of the panel [resume_cancelled_stream] prints before it
    reopens the stream. *)
Definition resume_stream_panel (user_message : str) : str :=
  lit "[cyan]Resuming response to: '" ++ shortened 60 user_message ++ lit "'[/cyan]".

(** What makes the loop leave through [except Exception]. *)
Definition raises (culprit : event) (e : exn) : Prop :=
  culprit = Raise e
  \/ exists v, culprit = Yield v /\ is_string v = false /\ e = Interp (NotAString v).

Section Runtime.

(** [json.loads] *)
Variable json_loads : str -> loads_outcome.

(** [str(e)] for the exceptions the interpreter raises. *)
Variable interp_msg : interp_fault -> str.

(** rich's reading of a [str] as console markup: [None] when the text can
    be rendered, [Some msg] when rendering it raises [MarkupError], [msg]
    being [str] of that exception. *)
Variable console_markup : str -> option str.

Definition str_exn (e : exn) : str :=
  match e with
  | Failure desc => desc
  | Interp f => interp_msg f
  | MarkupError desc => desc
  end.

(** A call that ends by rendering [text] as markup and returning [value].
    This is [console.print(text); return value], and it is also
    [live.update(Panel(text)); return value] inside [with Live(...)]: the
    live display renders its last renderable when the [with] block is
    left, and an exception raised there takes the place of the value
    being returned. *)
Definition shown_then {A} (text : str) (value : A) : outcome A :=
  match console_markup text with
  | None => Returns value
  | Some msg => Raises (MarkupError msg)
  end.

(** The value yielded by the outer [except Exception as e]. *)
Definition error_text (e : exn) : json :=
  JStr (lit "Error: " ++ str_exn e).

(** The loop over [response.iter_lines()], inside the outer [try]. *)
Fixpoint iter_lines (items : list wire_item) : list event :=
  match items with
  | [] => []
  | Broken desc :: _ => [Yield (error_text (Failure desc))]
  | Delivered line_str :: rest =>
      if negb (truthy line_str) then iter_lines rest
      else if negb (startswith (lit "data: ") line_str) then iter_lines rest
      else
        let json_str := slice_from 6 line_str in
        if str_eqb (strip json_str) (lit "[DONE]") then []
        else
          match json_loads json_str with
          | JSONDecodeError => iter_lines rest
          | LoadsRaises desc => [Yield (error_text (Failure desc))]
          | Decoded chunk_data =>
              match delta_content chunk_data with
              | Err f => [Yield (error_text (Interp f))]
              | Ok None => iter_lines rest
              | Ok (Some piece) => Yield piece :: iter_lines rest
              end
          end
  end.

(** Whether the loop goes through all of [items]: no terminator frame, no
    failure of the transport and no exception among them. *)
Fixpoint runs_through (items : list wire_item) : bool :=
  match items with
  | [] => true
  | Broken _ :: _ => false
  | Delivered line_str :: rest =>
      if negb (truthy line_str) then runs_through rest
      else if negb (startswith (lit "data: ") line_str) then runs_through rest
      else
        let json_str := slice_from 6 line_str in
        if str_eqb (strip json_str) (lit "[DONE]") then false
        else
          match json_loads json_str with
          | JSONDecodeError => runs_through rest
          | LoadsRaises _ => false
          | Decoded chunk_data =>
              match delta_content chunk_data with
              | Err _ => false
              | Ok _ => runs_through rest
              end
          end
  end.

(** A line the loop passes over: empty, or not an event-stream data line,
    or a data line that is not the terminator and on which [json.loads]
    raises [JSONDecodeError]. *)
Definition passed_over (line : str) : Prop :=
  truthy line = false
  \/ startswith (lit "data: ") line = false
  \/ (str_eqb (strip (slice_from 6 line)) (lit "[DONE]") = false
      /\ json_loads (slice_from 6 line) = JSONDecodeError).

(** [messages] goes into the request; the answer to that request is
    [attempt]. *)
Definition create_api_streaming_generator (messages : list Message)
  (attempt : http_attempt) : list event :=
  match attempt with
  | OpenFails desc => [Yield (error_text (Failure desc))]
  | Opened items => iter_lines items
  end.

(** [api_call_func] is called when the loop starts and may read the
    manager's state at that moment.  The panels shown while the loop runs
    and at its end hold [Markdown] objects or fixed texts; the panel of
    the [except Exception] branch holds the error text as a [str]. *)
Definition stream_ai_response_with_live_markdown (ui : StreamingUIManager)
  (api_call_func : StreamingUIManager -> list event)
  : outcome str * StreamingUIManager :=
  let ui := with_renderer ui (reset (markdown_renderer ui)) in
  let '(r, how) := pull_loop (markdown_renderer ui) (api_call_func ui) in
  let ui := with_renderer ui r in
  match how with
  | Exhausted => (Returns (full_content r), ui)
  | Interrupted => (Returns RESPONSE_CANCELLED, ui)
  | Faulted e =>
      let text := CROSS_MARK ++ lit " Error: " ++ str_exn e in
      (shown_then text text, ui)
  end.

(** The manager once [_resume_cancelled_stream] has seeded the renderer
    from [saved_state], before the producer is opened. *)
Definition resume_seeded (ui : StreamingUIManager) (saved_state : CancelledState)
  : StreamingUIManager :=
  let partial := snap_partial_content saved_state in
  let r := reset (markdown_renderer ui) in
  let r := mkRenderer (max_visible_lines r) (rolling_buffer r) partial
                      (current_line r) (word_count r) in
  let r := mkRenderer (max_visible_lines r) (rolling_buffer r) (full_content r)
                      [] (word_count r) in
  let r := mkRenderer (max_visible_lines r) (rolling_buffer r) (full_content r)
                      (current_line r) (length (split partial)) in
  with_renderer ui r.

(** The panel that names the prompt being resumed is replaced by another
    panel before the live display is left, on every path; it is rendered,
    if at all, by the display's refresh thread, where an exception does
    not reach the caller. *)
Definition _resume_cancelled_stream (ui : StreamingUIManager) (now : str)
  (api_call_func : StreamingUIManager -> list event)
  : outcome str * StreamingUIManager :=
  match cancelled_stream_state ui with
  | None => (Returns NO_CANCELLED_STREAM, ui)
  | Some saved_state =>
      let user_msg := snap_user_message saved_state in
      let original_messages := snap_messages saved_state in
      let ui := resume_seeded ui saved_state in
      let '(r, how) := pull_loop (markdown_renderer ui) (api_call_func ui) in
      let ui := with_renderer ui r in
      match how with
      | Exhausted => (Returns (full_content r), clear_cancelled_state ui)
      | Interrupted =>
          (Returns RESUME_CANCELLED,
           save_cancelled_state ui now user_msg (full_content r) original_messages)
      | Faulted e =>
          let text := CROSS_MARK ++ lit " Resume Error: " ++ str_exn e in
          (shown_then text text, ui)
      end
  end.

Definition stream_ai_response_with_resume (ui : StreamingUIManager) (now : str)
  (api_call_func : StreamingUIManager -> list event)
  : outcome str * StreamingUIManager :=
  if has_cancelled_stream ui then _resume_cancelled_stream ui now api_call_func
  else stream_ai_response_with_live_markdown ui api_call_func.

(** The [except Exception as e] clause of [stream_ai_response] and of
    [resume_cancelled_stream]: the error message is printed between
    [[red]] and [[/red]] and returned. *)
Definition reported (label : str) (e : exn) : outcome str :=
  let error_msg := CROSS_MARK ++ label ++ str_exn e in
  shown_then (lit "[red]" ++ error_msg ++ lit "[/red]") error_msg.

(** [HybridShell.stream_ai_response].  An exception raised by the
    session, or by the notification printed after the state is saved, is
    caught by [except Exception]; one raised by the print in that clause
    leaves the method. *)
Definition stream_ai_response (sh : HybridShell) (user_msg : str) (x : Exchange)
  : outcome str * HybridShell :=
  let messages := build_messages (context_manager sh) user_msg in
  let api_streaming_func := fun _ : StreamingUIManager =>
    with_interrupt (ctrl_c x) (create_api_streaming_generator messages (http x)) in
  let '(result, ui) :=
    stream_ai_response_with_live_markdown (streaming_ui sh) api_streaming_func in
  match result with
  | Returns response =>
      if str_eqb response RESPONSE_CANCELLED then
        let partial := full_content (markdown_renderer ui) in
        let sh' :=
          mkShell (save_cancelled_state ui (now_iso x) user_msg partial messages)
                  (context_manager sh) in
        match console_markup (show_cancelled_stream_notification user_msg) with
        | None => (Returns response, sh')
        | Some msg => (reported (lit " Streaming error: ") (MarkupError msg), sh')
        end
      else if is_answer response then
        (Returns response,
         mkShell ui (add_conversation (context_manager sh) user_msg response))
      else (Returns response, mkShell ui (context_manager sh))
  | Raises e =>
      (reported (lit " Streaming error: ") e, mkShell ui (context_manager sh))
  end.

(** [HybridShell.resume_cancelled_stream]; [None] is the bare [return]
    taken when there is nothing to resume.  The panel naming the prompt
    is printed before the [try], so an exception it raises leaves the
    method with nothing done. *)
Definition resume_cancelled_stream (sh : HybridShell) (x : Exchange)
  : outcome (option str) * HybridShell :=
  match cancelled_stream_state (streaming_ui sh) with
  | None => (Returns None, sh)
  | Some state_info =>
      let user_msg := snap_user_message state_info in
      match console_markup (resume_stream_panel user_msg) with
      | Some msg => (Raises (MarkupError msg), sh)
      | None =>
          let api_streaming_func := fun ui : StreamingUIManager =>
            match cancelled_stream_state ui with
            | Some st =>
                with_interrupt (ctrl_c x)
                  (create_api_streaming_generator (snap_messages st) (http x))
            | None => [Raise (Interp (BadSubscript JNull))]
            end in
          let '(result, ui) :=
            stream_ai_response_with_resume (streaming_ui sh) (now_iso x)
              api_streaming_func in
          match result with
          | Returns response =>
              if is_answer response then
                (Returns (Some response),
                 mkShell ui (add_conversation (context_manager sh) user_msg response))
              else (Returns (Some response), mkShell ui (context_manager sh))
          | Raises e =>
              (match reported (lit " Resume error: ") e with
               | Returns error_msg => Returns (Some error_msg)
               | Raises e' => Raises e'
               end,
               mkShell ui (context_manager sh))
          end
      end
  end.

End Runtime.

(** *** A decoder and sample exchanges for the examples

    [sample_json_loads] decodes the frames of one shape,
    [{"choices":[{"delta":{"content":C}}]}] where [C] is a string literal
    without escapes or the number 5, as [json.loads] does, and raises
    [JSONDecodeError] on every other text. *)

Definition QUOTE : char := 34%N.
Definition quoted (s : str) : str := [QUOTE] ++ s ++ [QUOTE].

Definition FRAME_HEAD : str :=
  lit "{" ++ quoted (lit "choices") ++ lit ":[{" ++ quoted (lit "delta")
    ++ lit ":{" ++ quoted (lit "content") ++ lit ":".
Definition FRAME_TAIL : str := lit "}}]}".

Definition frame_value (piece : json) : json :=
  JObj [(lit "choices", JArr [JObj [(lit "delta", JObj [(lit "content", piece)])]])].

(** No quote, no backslash and no control character. *)
Definition plain_text (s : str) : bool :=
  forallb (fun c => negb (c =? 34)%N && negb (c =? 92)%N && (32 <=? c)%N) s.

Definition sample_json_loads (s : str) : loads_outcome :=
  if startswith FRAME_HEAD s && startswith (rev FRAME_TAIL) (rev s) then
    let body := rev (skipn (length FRAME_TAIL) (rev (skipn (length FRAME_HEAD) s))) in
    match body with
    | [53%N] => Decoded (frame_value (JNum 5))
    | 34%N :: rest =>
        match rev rest with
        | 34%N :: text =>
            if plain_text text then Decoded (frame_value (JStr (rev text)))
            else JSONDecodeError
        | _ => JSONDecodeError
        end
    | _ => JSONDecodeError
    end
  else JSONDecodeError.

Definition sample_interp_msg (f : interp_fault) : str :=
  match f with
  | NotAString (JNum _) =>
      lit "can only concatenate str (not " ++ quoted (lit "int") ++ lit ") to str"
  | _ => lit "TypeError"
  end.

(** A reader of console markup for the examples.  On a text without
    backslashes it goes the way of [rich.markup.render]: a tag is an
    opening bracket, a character among [a-z], [#], [/] and [@], and
    whatever follows up to the next closing bracket, if no opening bracket
    comes before that; an opening tag is put on a stack; a closing tag
    takes the latest tag of its name from the stack, [[/]] the latest tag
    of all, and when there is none to take the reader raises with the
    message given here.  Tags are compared by their text. *)

Definition LBRACKET : char := 91%N.
Definition RBRACKET : char := 93%N.
Definition EQUALS : char := 61%N.

Definition opens_tag (c : char) : bool :=
  ((97 <=? c)%N && (c <=? 122)%N) || (c =? 35)%N || (c =? 47)%N || (c =? 64)%N.

Fixpoint pop_style (name : str) (stack : list str) : option (list str) :=
  match stack with
  | [] => None
  | top :: below =>
      if str_eqb top name then Some below
      else option_map (cons top) (pop_style name below)
  end.

(** [at_tag] is the position of the last opening bracket seen and the
    characters read since, latest first, while these can still be a tag. *)
Fixpoint markup_scan (pos : nat) (at_tag : option (nat * str)) (stack : list str)
  (s : str) : option str :=
  match s with
  | [] => None
  | c :: rest =>
      if char_eqb c LBRACKET then markup_scan (S pos) (Some (pos, [])) stack rest
      else
        match at_tag with
        | None => markup_scan (S pos) None stack rest
        | Some (start, read) =>
            if negb (char_eqb c RBRACKET)
            then markup_scan (S pos) (Some (start, c :: read)) stack rest
            else
              let tag := rev read in
              if negb (match tag with first :: _ => opens_tag first | [] => false end)
              then markup_scan (S pos) None stack rest
              else
                let name := hd [] (split_on EQUALS tag) in
                match name with
                | 47%N :: closed =>
                    match strip closed with
                    | [] =>
                        match stack with
                        | [] =>
                            Some (lit "closing tag '[/]' at position " ++ str_of_nat start
                                  ++ lit " has nothing to close")
                        | _ :: below => markup_scan (S pos) None below rest
                        end
                    | style_name =>
                        match pop_style style_name stack with
                        | None =>
                            Some (lit "closing tag '[" ++ tag ++ lit "]' at position "
                                  ++ str_of_nat start
                                  ++ lit " doesn't match any open tag")
                        | Some below => markup_scan (S pos) None below rest
                        end
                    end
                | _ => markup_scan (S pos) None (name :: stack) rest
                end
        end
  end.

Definition sample_console_markup (s : str) : option str := markup_scan 0 None [] s.

(** The event-stream line carrying one content fragment. *)
Definition data_line (piece : str) : wire_item :=
  Delivered (lit "data: " ++ FRAME_HEAD ++ quoted piece ++ FRAME_TAIL).

Definition DONE_LINE : wire_item := Delivered (lit "data: [DONE]").

(** The exchange of the resume scenario: the answer arrives in two
    fragments and the user interrupts after the second. *)
Definition answer_exchange : Exchange :=
  mkExchange (Opened [data_line (lit "The answer "); data_line (lit "is 4");
                      data_line (lit ", as you know."); DONE_LINE])
             (Some 2) (lit "2026-01-01T12:00:00").

Definition QUESTION : str := lit "What is 2+2?".

(** A prompt that holds a closing tag. *)
Definition TAGGED_QUESTION : str := lit "what does [/b] do?".

(** The shell after the interrupted exchange. *)
Definition cancelled_shell : HybridShell :=
  snd (stream_ai_response sample_json_loads sample_interp_msg sample_console_markup new_shell QUESTION
         answer_exchange).

(** The state that exchange leaves saved. *)
Definition scenario_saved : CancelledState :=
  mkCancelled QUESTION (lit "The answer is 4") [mkMessage (lit "user") QUESTION]
              (lit "2026-01-01T12:00:00") 4.

(** A producer that reports whether a cancelled state is saved at the
    moment the stream is opened. *)
Definition reporting_producer (at_start : StreamingUIManager) : list event :=
  if has_cancelled_stream at_start
  then fragments [lit " [saved state present]"]
  else fragments [lit " [no saved state]"].

(** The connection cannot be opened. *)
Definition refused_exchange : Exchange :=
  mkExchange (OpenFails (lit "Connection refused")) None (lit "2026-01-01T12:00:00").

(** The connection breaks after one fragment, which opens with U+274C. *)
Definition dropped_exchange : Exchange :=
  mkExchange (Opened [data_line (CROSS_MARK ++ lit " no"); Broken (lit "Connection reset")])
             None (lit "2026-01-01T12:00:00").

(** The connection breaks after an ordinary fragment. *)
Definition dropped_plain_exchange : Exchange :=
  mkExchange (Opened [data_line (lit "Sure, "); Broken (lit "Connection reset")])
             None (lit "2026-01-01T12:00:00").

(** A frame whose content is a number, not a string. *)
Definition numeric_exchange : Exchange :=
  mkExchange (Opened [data_line (lit "Sure, ");
                      Delivered (lit "data: " ++ FRAME_HEAD ++ lit "5" ++ FRAME_TAIL);
                      DONE_LINE])
             None (lit "2026-01-01T12:00:00").

(** ** More of the program

    The remaining operations of the context store and of the stream
    manager, the rows of the context table, and the dispatch of a shell
    command in [HybridShell]. *)

(** The last [m] items of a list. *)
Definition last_items {A} (m : nat) (l : list A) : list A :=
  skipn (length l - m) l.

(** The store and the line in progress are the end of the lines of the
    whole text. *)
Definition window_of_text (r : LiveMarkdownStreamRenderer) : Prop :=
  let lines := split_on NL (full_content r) in
  current_line r = last lines []
  /\ rolling_buffer r
     = last_items (Z.to_nat (max_visible_lines r)) (removelast lines).

(** Store and line in progress are all the lines of the text. *)
Definition holds_all_lines (r : LiveMarkdownStreamRenderer) : Prop :=
  current_line r = last (split_on NL (full_content r)) []
  /\ rolling_buffer r = removelast (split_on NL (full_content r)).

(** The state of a buffer in use: clean lines, a store within its bound
    and a word count that is the number of words of the text. *)
Definition buffer_in_order (r : LiveMarkdownStreamRenderer) : Prop :=
  lines_clean r
  /\ (Z.of_nat (length (rolling_buffer r)) <= max_visible_lines r)%Z
  /\ word_count r = length (split (full_content r)).

(** [create_streaming_api_generator]: hands on the chunks that are true
    as a condition, for an iterator of strings. *)
Definition create_streaming_api_generator (api_response_iterator : list str)
  : list str :=
  filter truthy api_response_iterator.

(** [ContextManager.get_latest_command_context]; [recent_contexts[0]] is
    taken on a non-empty list. *)
Definition get_latest_command_context (cm : ContextManager) : option ContextEntry :=
  match shell_context cm with
  | [] => None
  | _ :: _ => hd_error (sorted_recent_first (shell_context cm))
  end.

Definition clear_context (cm : ContextManager) : ContextManager :=
  mkContext [] (conversation_history cm).

Definition clear_conversation (cm : ContextManager) : ContextManager :=
  mkContext (shell_context cm) [].

Definition clear_all (cm : ContextManager) : ContextManager :=
  clear_conversation (clear_context cm).

(** The two messages one call of [add_conversation] appends. *)
Definition turn_messages (turn : str * str) : list Message :=
  [mkMessage (lit "user") (fst turn); mkMessage (lit "assistant") (snd turn)].

(** Recording a sequence of turns, oldest first. *)
Definition add_conversations (cm : ContextManager) (turns : list (str * str))
  : ContextManager :=
  fold_left (fun cm turn => add_conversation cm (fst turn) (snd turn)) turns cm.

(** [s.replace(old, new)] for one-character [old] and [new]. *)
Definition replace_char (old new : char) (s : str) : str :=
  List.map (fun c => if char_eqb c old then new else c) s.

Definition SLASH : char := 47%N.
Definition SPACE : char := 32%N.

(** The [output_preview] of [UIManager.show_context_table]. *)
Definition output_preview (out : str) : str :=
  let preview :=
    if 50 <? length out then slice_to 50 out ++ lit "..." else out in
  replace_char NL SPACE preview.

(** A row of the context table: time, command, directory, preview. *)
Record ContextRow := mkRow {
  row_time : str;
  row_command : str;
  row_directory : str;
  row_preview : str
}.

(** [UIManager.show_context_table]: the rows added to the table, which
    is printed once they are all there, or [None] when the panel without
    a table is printed instead. *)
Definition show_context_table (shell_ctx : list ContextEntry)
  : option (list ContextRow) :=
  match shell_ctx with
  | [] => None
  | _ :: _ =>
      Some (List.map
              (fun entry =>
                 mkRow (timestamp entry) (command entry)
                       (last_item (split_on SLASH (cwd entry)))
                       (output_preview (output entry)))
              (slice_from (- Z.of_nat Config.CONTEXT_FOR_AI) shell_ctx))
  end.

(** The dictionary returned by [get_cancelled_state_info]. *)
Record StateInfo := mkInfo {
  info_user_message : str;
  info_partial_word_count : nat;
  info_timestamp : str
}.

Definition get_cancelled_state_info (ui : StreamingUIManager) : option StateInfo :=
  match cancelled_stream_state ui with
  | None => None
  | Some st =>
      Some (mkInfo (snap_user_message st) (snap_word_count st) (snap_timestamp st))
  end.

(** A saved state whose word count is the number of words of its
    content. *)
Definition snapshot_consistent (saved : option CancelledState) : Prop :=
  match saved with
  | None => True
  | Some st => snap_word_count st = length (split (snap_partial_content st))
  end.

(** *** The dispatch of a shell command *)

(** [Config.INTERACTIVE_COMMANDS] *)
Definition INTERACTIVE_COMMANDS : list str :=
  [lit "nano"; lit "vim"; lit "vi"; lit "emacs"; lit "mc"; lit "htop"; lit "top";
   lit "fzf"; lit "less"; lit "more"; lit "man"; lit "tmux"; lit "screen";
   lit "python3"; lit "python"; lit "node"; lit "irb"; lit "psql"; lit "mysql";
   lit "nvim"; lit "nu"; lit "xonsh"; lit "apt"; lit "sudo";
   lit "sqlite3"; lit "redis-cli"; lit "mongo"; lit "bash"; lit "zsh"; lit "fish"].

(** [x in names] *)
Definition in_names (x : str) (names : list str) : bool :=
  existsb (str_eqb x) names.

(** [s.endswith(p)] *)
Definition endswith (p s : str) : bool := startswith (rev p) (rev s).

Definition PIPE : char := 124%N.
Definition BANG : char := 33%N.
Definition BACKSLASH : char := 92%N.

(** A value returned, or the [IndexError] of [[][0]]. *)
Inductive indexed (A : Type) :=
| Returned (a : A)
| IndexError.
Arguments Returned {A} a.
Arguments IndexError {A}.

(** [s.split()[0]] *)
Definition first_word (s : str) : indexed str :=
  match split s with
  | w :: _ => Returned w
  | [] => IndexError
  end.

(** The loop [for part in parts] of [is_interactive_command]. *)
Fixpoint any_part_interactive (parts : list str) : indexed bool :=
  match parts with
  | [] => Returned false
  | part :: rest =>
      match first_word (strip part) with
      | IndexError => IndexError
      | Returned w =>
          if in_names w INTERACTIVE_COMMANDS then Returned true
          else any_part_interactive rest
      end
  end.

Definition is_interactive_command (cmd : str) : indexed bool :=
  match first_word (strip cmd) with
  | IndexError => IndexError
  | Returned base_cmd =>
      if in_names base_cmd INTERACTIVE_COMMANDS then Returned true
      else if mem_char PIPE cmd then any_part_interactive (split_on PIPE cmd)
      else Returned false
  end.

(** What [_handle_cd_command] changes to, before [expanduser]: the home
    directory when the operand is empty, the operand otherwise. *)
Inductive cd_target :=
| CdHome
| CdTo (path : str).

Definition _handle_cd_command (cmd : str) : cd_target :=
  let path := strip (slice_from 3 (strip cmd)) in
  if negb (truthy path) then CdHome else CdTo path.

(** What [_handle_source_command] does first: it reports a missing
    operand, or goes on with the file named. *)
Inductive source_request :=
| SourceMissingOperand
| SourceFile (source_file : str).

Definition _handle_source_command (cmd : str) : source_request :=
  let source_file := strip (slice_from 7 (strip cmd)) in
  if negb (truthy source_file) then SourceMissingOperand else SourceFile source_file.

(** The branch [execute_shell_command] takes.  The handlers run
    processes and print; they are named, not run.  [ErrorRecorded] is
    the [except Exception] clause, which records the command with the
    error as its output. *)
Inductive shell_action :=
| NoAction
| EnvironmentCommand
| Exit
| ClearTerminal
| ChangeDirectory (target : cd_target)
| Source (request : source_request)
| Deactivate
| Activate
| Interactive
| Regular
| ErrorRecorded.

(** [HybridShell.handle_environment_commands]: every command that
    begins with an exclamation mark is taken. *)
Definition handle_environment_commands (cmd : str) : bool :=
  startswith [BANG] cmd.

Definition execute_shell_command (cmd : str) : shell_action :=
  let stripped := strip cmd in
  if negb (truthy stripped) then NoAction
  else if handle_environment_commands cmd then EnvironmentCommand
  else if str_eqb stripped (lit "exit") then Exit
  else if str_eqb stripped (lit "clear") then ClearTerminal
  else if startswith (lit "cd ") stripped then ChangeDirectory (_handle_cd_command cmd)
  else if startswith (lit "source ") stripped then Source (_handle_source_command cmd)
  else if str_eqb stripped (lit "deactivate") then Deactivate
  else if endswith (lit "/activate") stripped
          || endswith ([BACKSLASH] ++ lit "activate") stripped
          || startswith (lit "activate ") stripped then Activate
  else match is_interactive_command cmd with
       | IndexError => ErrorRecorded
       | Returned true => Interactive
       | Returned false => Regular
       end.

(** *** The search path after [deactivate] *)

Definition COLON : char := 58%N.

(** [os.path.join(a, b)] on a POSIX system. *)
Definition posix_join (a b : str) : str :=
  if startswith [SLASH] b then b
  else if negb (truthy a) || endswith [SLASH] a then a ++ b
  else a ++ [SLASH] ++ b.

(** The new value of [PATH] in [_handle_deactivate_command], with
    [os.pathsep] the colon. *)
Definition deactivated_path (virtual_env current_path : str) : str :=
  let venv_bin := posix_join virtual_env (lit "bin") in
  join [COLON]
    (filter (fun part => negb (startswith venv_bin part))
            (split_on COLON current_path)).

(** * Properties *)

(** ** Facts about the string primitives *)

Lemma char_eqb_eq (a b : char) : char_eqb a b = true <-> a = b.
Proof. unfold char_eqb. apply N.eqb_eq. Qed.

Lemma str_eqb_eq (a b : str) : str_eqb a b = true <-> a = b.
Proof.
  revert b. induction a as [|x a IH]; intros [|y b]; simpl; split; intro H;
    try reflexivity; try discriminate.
  - apply andb_true_iff in H as [Hx Hab].
    apply char_eqb_eq in Hx. apply IH in Hab. congruence.
  - injection H as -> ->. apply andb_true_iff. split.
    + now apply char_eqb_eq.
    + now apply IH.
Qed.

Lemma str_eqb_refl (a : str) : str_eqb a a = true.
Proof. now apply str_eqb_eq. Qed.

Lemma split_on_nonempty sep s : split_on sep s <> [].
Proof.
  destruct s as [|c s]; simpl; [discriminate|].
  destruct (char_eqb c sep); [discriminate|].
  destruct (split_on sep s); discriminate.
Qed.

(** No piece of [s.split(sep)] holds the separator. *)
Lemma split_on_pieces sep s :
  Forall (fun piece => mem_char sep piece = false) (split_on sep s).
Proof.
  induction s as [|c s IH]; simpl.
  - repeat constructor.
  - destruct (char_eqb c sep) eqn:E.
    + constructor; [reflexivity | exact IH].
    + destruct (split_on sep s) as [|w ws]; [repeat constructor; simpl|].
      * unfold mem_char. simpl. rewrite N.eqb_sym in E.
        unfold char_eqb in *. now rewrite E.
      * inversion IH as [|? ? Hw Hws]; subst. constructor; [|exact Hws].
        unfold mem_char in *. simpl. unfold char_eqb in *.
        rewrite N.eqb_sym, E. exact Hw.
Qed.

(** Splitting at line feeds undoes joining with line feeds, when no line
    holds a line feed. *)
Lemma split_on_join sep (l : list str) :
  l <> [] -> Forall (fun piece => mem_char sep piece = false) l ->
  split_on sep (join [sep] l) = l.
Proof.
  assert (Hone : forall x : str, mem_char sep x = false -> split_on sep x = [x]).
  { induction x as [|c x IHx]; simpl; intro H; [reflexivity|].
    unfold mem_char in H. simpl in H. apply orb_false_iff in H as [Hc Hx].
    unfold char_eqb in *. rewrite N.eqb_sym, Hc. now rewrite IHx. }
  induction l as [|x l IH]; intros Hne Hall; [congruence|].
  inversion Hall as [|? ? Hx Hl]; subst.
  destruct l as [|y l].
  - simpl. now apply Hone.
  - change (join [sep] (x :: y :: l)) with (x ++ [sep] ++ join [sep] (y :: l)).
    specialize (IH ltac:(discriminate) Hl). revert IH.
    generalize (join [sep] (y :: l)) as t. intros t IH.
    clear Hall Hne Hl. induction x as [|c x IHx]; simpl.
    + unfold char_eqb. rewrite N.eqb_refl. now rewrite IH.
    + unfold mem_char in Hx. simpl in Hx. apply orb_false_iff in Hx as [Hc Hx].
      unfold char_eqb in *. rewrite N.eqb_sym, Hc.
      simpl in IHx. rewrite (IHx Hx). reflexivity.
Qed.

(** The words of [s.split()] are non-empty and free of whitespace. *)
Lemma split_words s :
  Forall (fun w => w <> [] /\ forallb (fun c => negb (isspace c)) w = true) (split s).
Proof.
  induction s as [|c s IH]; simpl; [constructor|].
  destruct (isspace c) eqn:Ec; [exact IH|].
  destruct s as [|d s'].
  - constructor; [|constructor]. split; [discriminate|]. simpl. now rewrite Ec.
  - destruct (isspace d) eqn:Ed.
    + constructor; [|exact IH]. split; [discriminate|]. simpl. now rewrite Ec.
    + destruct (split (d :: s')) as [|w ws].
      * constructor; [|constructor]. split; [discriminate|]. simpl. now rewrite Ec.
      * inversion IH as [|? ? [Hw1 Hw2] Hws]; subst. constructor; [|exact Hws].
        split; [discriminate|]. simpl. now rewrite Ec, Hw2.
Qed.

(** A negative bound [-m] with [m >= 1] keeps the last [m] items. *)
Lemma slice_from_neg {A} (m : Z) (l : list A) :
  (1 <= m)%Z -> slice_from (- m) l = skipn (length l - Z.to_nat m) l.
Proof.
  intro Hm. unfold slice_from.
  destruct (Z.ltb_spec (- m) 0) as [_|H]; [|lia].
  f_equal. lia.
Qed.

Lemma slice_from_neg_length {A} (m : Z) (l : list A) :
  (1 <= m)%Z -> length (slice_from (- m) l) = Nat.min (length l) (Z.to_nat m).
Proof. intro Hm. rewrite slice_from_neg by exact Hm. rewrite length_skipn. lia. Qed.

(** Any slice [l[i:]] is what is left of [l] once some first items are
    dropped. *)
Lemma slice_from_suffix {A} (i : Z) (l : list A) :
  exists dropped, l = dropped ++ slice_from i l.
Proof.
  unfold slice_from.
  set (k := Z.to_nat _). exists (firstn k l). symmetry. apply firstn_skipn.
Qed.

Lemma Forall_slice_from {A} (P : A -> Prop) (i : Z) (l : list A) :
  Forall P l -> Forall P (slice_from i l).
Proof.
  intro H. destruct (slice_from_suffix i l) as [d Hd].
  rewrite Hd in H. apply Forall_app in H. tauto.
Qed.

Lemma Forall_removelast {A} (P : A -> Prop) (l : list A) :
  Forall P l -> Forall P (removelast l).
Proof.
  induction l as [|x l IH]; intro H; [constructor|].
  inversion H; subst. simpl. destruct l; [constructor|].
  constructor; auto.
Qed.

Lemma Forall_last (P : str -> Prop) (l : list str) (d : str) :
  l <> [] -> Forall P l -> P (last l d).
Proof.
  induction l as [|x l IH]; intros Hne H; [congruence|].
  inversion H; subst. simpl. destruct l; [assumption|].
  apply IH; [discriminate | assumption].
Qed.

(** ** The rolling buffer *)

Lemma add_chunk_max r chunk :
  max_visible_lines (add_chunk r chunk) = max_visible_lines r.
Proof.
  unfold add_chunk. destruct (mem_char NL (current_line r ++ chunk)); reflexivity.
Qed.

Lemma add_chunk_full_content r chunk :
  full_content (add_chunk r chunk) = full_content r ++ chunk.
Proof.
  unfold add_chunk. destruct (mem_char NL (current_line r ++ chunk)); reflexivity.
Qed.

Lemma add_chunk_word_count r chunk :
  word_count (add_chunk r chunk) = length (split (full_content r ++ chunk)).
Proof.
  unfold add_chunk. destruct (mem_char NL (current_line r ++ chunk)); reflexivity.
Qed.

Lemma add_chunk_rolling_buffer r chunk :
  rolling_buffer (add_chunk r chunk) =
    let buf := rolling_buffer r ++ completed_by r chunk in
    if (Z.of_nat (length buf) >? max_visible_lines r)%Z
    then slice_from (- max_visible_lines r) buf else buf.
Proof.
  unfold add_chunk, completed_by.
  destruct (mem_char NL (current_line r ++ chunk)); simpl;
    rewrite ?app_nil_r; reflexivity.
Qed.

Lemma add_chunks_app r xs ys :
  add_chunks r (xs ++ ys) = add_chunks (add_chunks r xs) ys.
Proof. unfold add_chunks. apply fold_left_app. Qed.

Lemma add_chunks_max r chunks :
  max_visible_lines (add_chunks r chunks) = max_visible_lines r.
Proof.
  revert r. induction chunks as [|c cs IH]; intro r; [reflexivity|].
  simpl. rewrite IH. apply add_chunk_max.
Qed.

Lemma add_chunks_full_content r chunks :
  full_content (add_chunks r chunks) = full_content r ++ concat chunks.
Proof.
  revert r. induction chunks as [|c cs IH]; intro r; simpl.
  - now rewrite app_nil_r.
  - rewrite IH, add_chunk_full_content. now rewrite <- app_assoc.
Qed.

Lemma add_chunk_clean r chunk : lines_clean r -> lines_clean (add_chunk r chunk).
Proof.
  intros [Hbuf Hcur]. unfold lines_clean, add_chunk.
  pose proof (split_on_pieces NL (current_line r ++ chunk)) as Hp.
  pose proof (split_on_nonempty NL (current_line r ++ chunk)) as Hne.
  destruct (mem_char NL (current_line r ++ chunk)) eqn:E; simpl; split.
  - assert (Hall : Forall (fun line => mem_char NL line = false)
                     (rolling_buffer r ++ all_but_last (split_on NL (current_line r ++ chunk)))).
    { apply Forall_app. split; [exact Hbuf|]. now apply Forall_removelast. }
    destruct (_ >? _)%Z; [now apply Forall_slice_from | exact Hall].
  - unfold last_item.
    apply (Forall_last (fun line => mem_char NL line = false)); assumption.
  - destruct (_ >? _)%Z; [now apply Forall_slice_from | exact Hbuf].
  - exact E.
Qed.

Lemma add_chunks_clean r chunks : lines_clean r -> lines_clean (add_chunks r chunks).
Proof.
  revert r. induction chunks as [|c cs IH]; intros r H; [exact H|].
  simpl. apply IH. now apply add_chunk_clean.
Qed.

Lemma reset_clean r : lines_clean (reset r).
Proof. split; [constructor | reflexivity]. Qed.

(** After a fragment the store is within its bound. *)
Lemma add_chunk_bounded r chunk :
  (1 <= max_visible_lines r)%Z ->
  (Z.of_nat (length (rolling_buffer (add_chunk r chunk))) <= max_visible_lines r)%Z.
Proof.
  intro Hm. rewrite add_chunk_rolling_buffer. cbv zeta.
  destruct (Z.gtb_spec (Z.of_nat (length (rolling_buffer r ++ completed_by r chunk)))
              (max_visible_lines r)) as [Hgt|Hle].
  - rewrite slice_from_neg_length by exact Hm. lia.
  - exact Hle.
Qed.

Lemma add_chunks_bounded r chunks :
  (1 <= max_visible_lines r)%Z ->
  (Z.of_nat (length (rolling_buffer r)) <= max_visible_lines r)%Z ->
  (Z.of_nat (length (rolling_buffer (add_chunks r chunks))) <= max_visible_lines r)%Z.
Proof.
  revert r. induction chunks as [|c cs IH]; intros r Hm Hb; [exact Hb|].
  simpl. rewrite <- (add_chunk_max r c).
  apply IH; rewrite add_chunk_max; [exact Hm | now apply add_chunk_bounded].
Qed.

(** The live view of a bounded store: the stored lines that fit, then the
    line in progress. *)
Lemma display_lines_shape r :
  (1 <= max_visible_lines r)%Z ->
  (Z.of_nat (length (rolling_buffer r)) <= max_visible_lines r)%Z ->
  exists dropped completed trailing,
    display_lines r = completed ++ trailing
    /\ rolling_buffer r = dropped ++ completed
    /\ (trailing = [] \/ trailing = [current_line r ++ [CURSOR]])
    /\ (Z.of_nat (length completed + length trailing) <= max_visible_lines r)%Z.
Proof.
  intros Hm Hb. unfold display_lines.
  destruct (truthy (current_line r)).
  - rewrite slice_from_neg by exact Hm. rewrite length_app. simpl.
    set (k := length (rolling_buffer r) + 1 - Z.to_nat (max_visible_lines r)).
    assert (Hk : k <= length (rolling_buffer r)) by (unfold k; lia).
    exists (firstn k (rolling_buffer r)), (skipn k (rolling_buffer r)),
      [current_line r ++ [CURSOR]].
    repeat split.
    + rewrite skipn_app. replace (k - length (rolling_buffer r)) with 0 by lia.
      reflexivity.
    + symmetry. apply firstn_skipn.
    + now right.
    + rewrite length_skipn. simpl. unfold k. lia.
  - rewrite slice_from_neg by exact Hm.
    replace (length (rolling_buffer r) - Z.to_nat (max_visible_lines r)) with 0 by lia.
    exists [], (rolling_buffer r), []. simpl. rewrite app_nil_r.
    repeat split; [now left | lia].
Qed.

Lemma display_lines_clean r :
  lines_clean r ->
  Forall (fun line => mem_char NL line = false) (display_lines r).
Proof.
  intros [Hbuf Hcur]. unfold display_lines. apply Forall_slice_from.
  destruct (truthy (current_line r)); [|exact Hbuf].
  apply Forall_app. split; [exact Hbuf|]. constructor; [|constructor].
  unfold mem_char in *. rewrite existsb_app, Hcur. reflexivity.
Qed.

(** The live view never has more lines than the bound. *)
Lemma streaming_view_lines r :
  (1 <= max_visible_lines r)%Z ->
  (Z.of_nat (length (rolling_buffer r)) <= max_visible_lines r)%Z ->
  lines_clean r ->
  (Z.of_nat (length (split_on NL (get_streaming_content r))) <= max_visible_lines r)%Z.
Proof.
  intros Hm Hb Hc. unfold get_streaming_content. cbv zeta.
  destruct (truthy (strip (join [NL] (display_lines r)))) eqn:E.
  - destruct (display_lines r) as [|x l] eqn:Ed; [discriminate E|].
    rewrite split_on_join; [| discriminate | rewrite <- Ed; now apply display_lines_clean].
    destruct (display_lines_shape r Hm Hb) as (d & c & t & H1 & _ & _ & H4).
    rewrite <- Ed, H1, length_app. exact H4.
  - change (Z.of_nat 1 <= max_visible_lines r)%Z. lia.
Qed.

(** C3.  For every sequence of fragments fed to a freshly reset rolling
    buffer, [full_content] is the concatenation of the fragments in arrival
    order; every [add_chunk] appends its fragment to the previous
    [full_content], so the content fed so far is always a prefix of the
    content after more fragments; and [reset] empties it. *)
Theorem C3_full_content_concatenates :
  forall (r : LiveMarkdownStreamRenderer) (chunks : list str),
    full_content (add_chunks (reset r) chunks) = concat chunks
    /\ (forall r' chunk, full_content (add_chunk r' chunk) = full_content r' ++ chunk)
    /\ (forall r' earlier later,
          full_content (add_chunks r' (earlier ++ later))
          = full_content (add_chunks r' earlier) ++ concat later)
    /\ full_content (reset (add_chunks (reset r) chunks)) = [].
Proof.
  intros r chunks. repeat split.
  - rewrite add_chunks_full_content. reflexivity.
  - apply add_chunk_full_content.
  - intros r' earlier later.
    rewrite add_chunks_app. apply add_chunks_full_content.
Qed.

(** Every view shown while fragments arrive is within the bound. *)
Lemma live_views_bounded r chunks :
  (1 <= max_visible_lines r)%Z ->
  (Z.of_nat (length (rolling_buffer r)) <= max_visible_lines r)%Z ->
  lines_clean r ->
  Forall (fun view => (Z.of_nat (length (split_on NL view)) <= max_visible_lines r)%Z)
         (live_views r (fragments chunks)).
Proof.
  revert r. induction chunks as [|c cs IH]; intros r Hm Hb Hc; cbn [fragments List.map live_views].
  - constructor.
  - assert (Hm' : (1 <= max_visible_lines (add_chunk r c))%Z) by now rewrite add_chunk_max.
    assert (Hb' : (Z.of_nat (length (rolling_buffer (add_chunk r c)))
                   <= max_visible_lines (add_chunk r c))%Z).
    { rewrite add_chunk_max. now apply add_chunk_bounded. }
    assert (Hc' : lines_clean (add_chunk r c)) by now apply add_chunk_clean.
    constructor.
    + rewrite <- (add_chunk_max r c). now apply streaming_view_lines.
    + rewrite <- (add_chunk_max r c). now apply IH.
Qed.

(** C4.  Take a rolling buffer with [max_visible_lines >= 1] whose line
    store and line in progress are empty, as [__init__], [reset] and the
    seeding of a resume leave them.  After any sequence of fragments the
    line store holds at most [max_visible_lines] lines; the live view
    shows stored lines taken from the end of the store followed by at
    most the one line in progress, never more than [max_visible_lines]
    lines of text in all, and so does every view shown on the way; and
    each [add_chunk] leaves in the store the most recent
    [max_visible_lines] of the lines stored before followed by the lines
    the fragment completed, dropping the oldest. *)
Theorem C4_streaming_view_bounded :
  forall (r0 : LiveMarkdownStreamRenderer) (chunks : list str),
    (1 <= max_visible_lines r0)%Z ->
    rolling_buffer r0 = [] ->
    current_line r0 = [] ->
    let r := add_chunks r0 chunks in
    let m := Z.to_nat (max_visible_lines r0) in
    length (rolling_buffer r) <= m
    /\ (exists dropped completed trailing,
          display_lines r = completed ++ trailing
          /\ rolling_buffer r = dropped ++ completed
          /\ (trailing = [] \/ trailing = [current_line r ++ [CURSOR]])
          /\ length completed <= m
          /\ length (display_lines r) <= m)
    /\ length (split_on NL (get_streaming_content r)) <= m
    /\ Forall (fun view => length (split_on NL view) <= m)
              (live_views r0 (fragments chunks))
    /\ (forall chunk,
          let stored := rolling_buffer r ++ completed_by r chunk in
          rolling_buffer (add_chunk r chunk)
          = skipn (length stored - m) stored).
Proof.
  intros r0 chunks Hm Hbuf Hcur r m.
  assert (Hmax : max_visible_lines r = max_visible_lines r0).
  { unfold r. rewrite add_chunks_max. reflexivity. }
  assert (Hb0 : (Z.of_nat (length (rolling_buffer r0)) <= max_visible_lines r0)%Z).
  { rewrite Hbuf. simpl. lia. }
  assert (Hc0 : lines_clean r0).
  { unfold lines_clean. rewrite Hbuf, Hcur. split; [constructor | reflexivity]. }
  assert (Hb : (Z.of_nat (length (rolling_buffer r)) <= max_visible_lines r)%Z).
  { rewrite Hmax. unfold r. now apply add_chunks_bounded. }
  assert (Hc : lines_clean r) by now apply add_chunks_clean.
  pose proof (live_views_bounded r0 chunks Hm Hb0 Hc0) as Hviews.
  rewrite <- Hmax in Hm.
  split; [unfold m; lia|]. split; [|split; [|split]].
  - destruct (display_lines_shape r Hm Hb) as (d & c & t & H1 & H2 & H3 & H4).
    exists d, c, t. rewrite H1, length_app. unfold m.
    repeat split; try assumption; lia.
  - pose proof (streaming_view_lines r Hm Hb Hc). unfold m. lia.
  - eapply Forall_impl; [|exact Hviews]. intros view Hv. cbv beta in Hv. unfold m. lia.
  - intros chunk stored. rewrite add_chunk_rolling_buffer. cbv zeta.
    fold stored. unfold m. rewrite <- Hmax.
    destruct (Z.gtb_spec (Z.of_nat (length stored)) (max_visible_lines r)) as [Hgt|Hle].
    + apply slice_from_neg. exact Hm.
    + replace (length stored - Z.to_nat (max_visible_lines r)) with 0 by lia.
      reflexivity.
Qed.

Lemma C4_streaming_view_bounded_witness :
  (1 <= max_visible_lines (new_renderer 1))%Z
  /\ rolling_buffer (new_renderer 1) = []
  /\ current_line (new_renderer 1) = []
  /\ length (rolling_buffer (add_chunks (new_renderer 1) scenario_fragments)) <= 1
  /\ length (split_on NL (get_streaming_content
               (add_chunks (new_renderer 1) scenario_fragments))) <= 1.
Proof.
  assert (H : (1 <= max_visible_lines (new_renderer 1))%Z) by (simpl; lia).
  destruct (C4_streaming_view_bounded (new_renderer 1) scenario_fragments H eq_refl eq_refl)
    as (H1 & _ & H3 & _).
  exact (conj H (conj eq_refl (conj eq_refl (conj H1 H3)))).
Defined.

(** C5.  Feeding "Hello ", "world\n", "second ", "line" to a freshly reset
    buffer with [max_visible_lines = 1] gives the live view
    "second line" followed by the cursor: the completed line "Hello world"
    is in the store and left out of the display, while the final view is
    the full text "Hello world\nsecond line". *)
Theorem C5_scenario_hello_world :
  let r := add_chunks (reset (new_renderer 1)) scenario_fragments in
  get_streaming_content r = lit "second line" ++ [CURSOR]
  /\ display_lines r = [lit "second line" ++ [CURSOR]]
  /\ rolling_buffer r = [lit "Hello world"]
  /\ get_final_content r = lit "Hello world" ++ [NL] ++ lit "second line".
Proof. vm_compute. repeat split; reflexivity. Qed.

(** ** The context store *)

Lemma add_shell_contexts_snoc cm runs run :
  add_shell_contexts cm (runs ++ [run])
  = add_shell_context (add_shell_contexts cm runs) (fst run) (fst (snd run)) (snd (snd run)).
Proof. unfold add_shell_contexts. rewrite fold_left_app. reflexivity. Qed.

Lemma add_shell_context_entries cm env cmd out :
  shell_context (add_shell_context cm env cmd out)
  = let ctx := shell_context cm ++ [entry_of (env, (cmd, out))] in
    if Config.MAX_SHELL_CONTEXT <? length ctx then pop0 ctx else ctx.
Proof. reflexivity. Qed.

Lemma pop0_skipn {A} (l : list A) : pop0 l = skipn 1 l.
Proof. destruct l; reflexivity. Qed.

(** Inserting into an empty store keeps the last [MAX_SHELL_CONTEXT]
    entries, in the order of insertion. *)
Lemma add_shell_contexts_keeps_last runs :
  shell_context (add_shell_contexts new_context_manager runs)
  = skipn (length runs - Config.MAX_SHELL_CONTEXT) (List.map entry_of runs).
Proof.
  induction runs as [|run runs IH] using rev_ind; [reflexivity|].
  rewrite add_shell_contexts_snoc.
  destruct run as [env [cmd out]]. cbn [fst snd].
  rewrite add_shell_context_entries. cbv zeta. rewrite IH. clear IH.
  rewrite map_app. cbn [List.map].
  rewrite !length_app, length_skipn, length_map. cbn [length].
  rewrite <- (length_map entry_of runs).
  generalize (List.map entry_of runs) as es. intro es.
  set (e := entry_of (env, (cmd, out))).
  unfold Config.MAX_SHELL_CONTEXT.
  destruct (Nat.ltb_spec 10 (length es - (length es - 10) + 1)) as [H|H].
  - rewrite pop0_skipn, skipn_app, length_skipn.
    replace (1 - (length es - (length es - 10))) with 0 by lia.
    rewrite skipn_skipn. cbn [skipn].
    rewrite skipn_app.
    replace (length es + 1 - 10 - length es) with 0 by lia.
    cbn [skipn]. f_equal. f_equal. lia.
  - rewrite skipn_app.
    replace (length es + 1 - 10 - length es) with 0 by lia.
    cbn [skipn]. f_equal. f_equal. lia.
Qed.

Lemma insert_desc_perm x l : Permutation (insert_desc x l) (x :: l).
Proof.
  induction l as [|y l IH]; simpl; [reflexivity|].
  destruct (epoch_time x <? epoch_time y)%Z; [|reflexivity].
  rewrite IH. apply perm_swap.
Qed.

Lemma sorted_recent_first_perm l : Permutation (sorted_recent_first l) l.
Proof.
  induction l as [|x l IH]; simpl; [reflexivity|].
  rewrite insert_desc_perm. now constructor.
Qed.

Lemma sorted_recent_first_length l : length (sorted_recent_first l) = length l.
Proof. apply Permutation_length, sorted_recent_first_perm. Qed.

Lemma insert_desc_sorted x l :
  StronglySorted no_older l -> StronglySorted no_older (insert_desc x l).
Proof.
  induction l as [|y l IH]; intro H; simpl.
  - constructor; constructor.
  - inversion H as [|? ? Hl Hy]; subst.
    destruct (Z.ltb_spec (epoch_time x) (epoch_time y)) as [Hlt|Hge].
    + constructor; [now apply IH|].
      eapply Permutation_Forall.
      * symmetry. apply insert_desc_perm.
      * constructor; [unfold no_older; lia | exact Hy].
    + constructor; [exact H|].
      constructor; [exact Hge|].
      eapply Forall_impl; [|exact Hy]. unfold no_older. intros a Ha. lia.
Qed.

Lemma sorted_recent_first_sorted l : StronglySorted no_older (sorted_recent_first l).
Proof.
  induction l as [|x l IH]; simpl; [constructor|].
  now apply insert_desc_sorted.
Qed.

(** C6.  For every [k >= 1], after [MAX_SHELL_CONTEXT + k] insertions
    into an empty store exactly the [MAX_SHELL_CONTEXT] entries inserted
    last remain, in insertion order: the first [k] inserted are gone,
    whatever their [epoch_time].  The ranking used for the AI context is
    a reordering of what remains, most recent [epoch_time] first. *)
Theorem C6_shell_context_fifo :
  forall (k : nat) (runs : list (Surroundings * (str * str))),
    1 <= k ->
    length runs = Config.MAX_SHELL_CONTEXT + k ->
    let cm := add_shell_contexts new_context_manager runs in
    shell_context cm = List.map entry_of (skipn k runs)
    /\ length (shell_context cm) = Config.MAX_SHELL_CONTEXT
    /\ Permutation (sorted_recent_first (shell_context cm)) (shell_context cm)
    /\ StronglySorted no_older (sorted_recent_first (shell_context cm)).
Proof.
  intros k runs Hk Hlen cm.
  assert (H : shell_context cm = List.map entry_of (skipn k runs)).
  { unfold cm. rewrite add_shell_contexts_keeps_last, Hlen.
    replace (Config.MAX_SHELL_CONTEXT + k - Config.MAX_SHELL_CONTEXT) with k by lia.
    apply skipn_map. }
  split; [exact H|]. split; [|split].
  - rewrite H, length_map, length_skipn. lia.
  - apply sorted_recent_first_perm.
  - apply sorted_recent_first_sorted.
Qed.

Lemma C6_shell_context_fifo_witness :
  1 <= 2
  /\ length twelve_runs = Config.MAX_SHELL_CONTEXT + 2
  /\ shell_context (add_shell_contexts new_context_manager twelve_runs)
     = List.map entry_of (skipn 2 twelve_runs)
  /\ length (shell_context (add_shell_contexts new_context_manager twelve_runs)) = 10.
Proof.
  assert (H1 : 1 <= 2) by lia.
  assert (H2 : length twelve_runs = Config.MAX_SHELL_CONTEXT + 2) by reflexivity.
  destruct (C6_shell_context_fifo 2 twelve_runs H1 H2) as (Ha & Hb & _).
  exact (conj H1 (conj H2 (conj Ha Hb))).
Defined.

Lemma spec_cut_agrees (limit : nat) (out : str) :
  (if limit <? length out then slice_to limit out ++ TRUNCATED_SUFFIX else out)
  = spec_cut limit out.
Proof.
  unfold spec_cut, slice_to.
  destruct (Nat.ltb_spec limit (length out)), (Nat.leb_spec (length out) limit);
    try reflexivity; lia.
Qed.

(** One round of the priority loop is the full-detail rendering of the
    entry at rank [i + 1]. *)
Lemma render_priority_cons i entry rest :
  render_priority i (entry :: rest)
  = spec_full_detail (S i) (if i =? 0 then 800 else 400) (Some entry)
      ++ render_priority (S i) rest.
Proof.
  cbn [render_priority spec_full_detail].
  rewrite spec_cut_agrees.
  replace (i + 1) with (S i) by lia.
  assert (Hm : (if i =? 0 then lit ">>> LATEST:"
                else lit ">>> #" ++ str_of_nat (S i) ++ lit ":") = spec_marker (S i)).
  { destruct i; reflexivity. }
  rewrite Hm.
  destruct (output entry) as [|c out] eqn:Eo; cbn [truthy];
    rewrite <- !app_assoc; reflexivity.
Qed.

Lemma priority_block ranked :
  render_priority 0 (slice_to 3 ranked)
  = spec_full_detail 1 800 (nth_error ranked 0)
      ++ spec_full_detail 2 400 (nth_error ranked 1)
      ++ spec_full_detail 3 400 (nth_error ranked 2).
Proof.
  unfold slice_to.
  destruct ranked as [|a [|b [|c rest]]]; cbn [firstn nth_error];
    rewrite ?render_priority_cons; cbn [render_priority Nat.eqb];
    change (spec_full_detail 1 800 None) with (@nil str);
    change (spec_full_detail 2 400 None) with (@nil str);
    change (spec_full_detail 3 400 None) with (@nil str);
    rewrite ?app_nil_r; reflexivity.
Qed.

Lemma older_block ranked :
  List.map render_older (slice 3 Config.CONTEXT_FOR_AI ranked)
  = List.map spec_one_line (spec_ranks 4 Config.CONTEXT_FOR_AI ranked).
Proof.
  destruct ranked as [|a [|b [|c [|d [|e rest]]]]]; reflexivity.
Qed.

Lemma older_section (parts : list str) (older : list ContextEntry) :
  match older with
  | [] => parts
  | _ :: _ => parts ++ [OLDER_HEADING] ++ List.map render_older older
  end
  = parts ++ match List.map render_older older with
             | [] => []
             | _ :: _ => OLDER_HEADING :: List.map render_older older
             end.
Proof. destruct older; [now rewrite app_nil_r | reflexivity]. Qed.

Lemma build_context_for_ai_refines cm :
  build_context_for_ai cm = spec_buildAIContext (shell_context cm).
Proof.
  unfold build_context_for_ai, spec_buildAIContext.
  destruct (shell_context cm) as [|e0 es] eqn:Ectx; [reflexivity|].
  pose proof (sorted_recent_first_length (e0 :: es)) as Hlen.
  revert Hlen. generalize (sorted_recent_first (e0 :: es)) as ranked.
  intros ranked Hlen. cbv zeta.
  rewrite older_section, older_block.
  generalize (List.map spec_one_line (spec_ranks 4 Config.CONTEXT_FOR_AI ranked)).
  intro summaries.
  assert (Hp : match slice_to 3 ranked with
               | [] => [CONTEXT_HEADER]
               | _ :: _ => [CONTEXT_HEADER] ++ [PRIORITY_HEADING]
                             ++ render_priority 0 (slice_to 3 ranked)
               end
               = [CONTEXT_HEADER; PRIORITY_HEADING]
                   ++ render_priority 0 (slice_to 3 ranked)).
  { destruct ranked; [discriminate Hlen | reflexivity]. }
  rewrite Hp, priority_block. rewrite <- !app_assoc. reflexivity.
Qed.


(** ** The chunk source *)

(** [delta_content] hands over a value exactly when the frame is an object
    whose [choices] is a list starting with an object, whose [delta] is an
    object with a [content] that is true as a condition. *)
Lemma delta_content_yields (chunk_data v : json) :
  delta_content chunk_data = Ok (Some v)
  <-> exists fields more first_fields delta_fields,
        chunk_data = JObj fields
        /\ lookup (lit "choices") fields = Some (JArr (JObj first_fields :: more))
        /\ lookup (lit "delta") first_fields = Some (JObj delta_fields)
        /\ lookup (lit "content") delta_fields = Some v
        /\ json_truthy v = true.
Proof.
  split.
  - unfold delta_content, bind, py_in, getitem, py_len, getitem0, dict_get.
    destruct chunk_data as [| b | q | s | items | fields]; try discriminate.
    + destruct (contains (lit "choices") s); discriminate.
    + destruct (existsb _ items); discriminate.
    + destruct (lookup (lit "choices") fields) as [choices|] eqn:E1;
        cbn [negb]; [|discriminate].
      destruct choices as [| b | q | s | items | cf]; try discriminate.
      * destruct s as [|c s]; discriminate.
      * destruct items as [|first more]; [discriminate|].
        cbn [length Nat.eqb].
        destruct first as [| b | q | s | fi | first_fields]; try discriminate.
        destruct (lookup (lit "delta") first_fields) as [delta|] eqn:E2.
        -- destruct delta as [| b | q | s | di | delta_fields]; try discriminate.
           destruct (lookup (lit "content") delta_fields) as [piece|] eqn:E3.
           ++ destruct (json_truthy piece) eqn:E4; [|discriminate].
              intro H. injection H as <-.
              exists fields, more, first_fields, delta_fields. auto.
           ++ discriminate.
        -- discriminate.
      * destruct cf; discriminate.
  - intros (fields & more & ff & df & -> & E1 & E2 & E3 & E4).
    unfold delta_content, bind, py_in, getitem, py_len, getitem0, dict_get.
    rewrite E1. cbn [negb length Nat.eqb]. rewrite E2, E3, E4. reflexivity.
Qed.

Section RuntimeFacts.

Variable json_loads : str -> loads_outcome.
Variable interp_msg : interp_fault -> str.
Variable console_markup : str -> option str.

Local Abbreviation lines_loop := (iter_lines json_loads interp_msg).
Local Abbreviation goes_through := (runs_through json_loads).
Local Abbreviation generator := (create_api_streaming_generator json_loads interp_msg).
Local Abbreviation failure_text := (error_text interp_msg).
Local Abbreviation describe := (str_exn interp_msg).
Local Abbreviation left_out := (passed_over json_loads).
Local Abbreviation session :=
  (stream_ai_response_with_live_markdown interp_msg console_markup).
Local Abbreviation resume := (_resume_cancelled_stream interp_msg console_markup).
Local Abbreviation exchange := (stream_ai_response json_loads interp_msg console_markup).
Local Abbreviation shown := (shown_then console_markup).
Local Abbreviation report := (reported interp_msg console_markup).

Lemma iter_lines_passed_over line rest :
  left_out line -> lines_loop (Delivered line :: rest) = lines_loop rest.
Proof.
  intros [H | [H | [H1 H2]]]; cbn [iter_lines].
  - now rewrite H.
  - destruct (truthy line); cbn [negb]; [now rewrite H | reflexivity].
  - destruct (truthy line); cbn [negb]; [|reflexivity].
    destruct (startswith (lit "data: ") line); cbn [negb]; [|reflexivity].
    now rewrite H1, H2.
Qed.

(** A line after which the loop goes on as if it had not been there
    changes nothing, wherever it stands. *)
Lemma iter_lines_without before line after :
  (forall rest, lines_loop (Delivered line :: rest) = lines_loop rest) ->
  lines_loop (before ++ Delivered line :: after) = lines_loop (before ++ after).
Proof.
  intro H. induction before as [|item before IH]; cbn [app].
  - apply H.
  - destruct item as [text|desc]; cbn [iter_lines]; rewrite ?IH; reflexivity.
Qed.

Lemma iter_lines_skip before line after :
  left_out line ->
  lines_loop (before ++ Delivered line :: after) = lines_loop (before ++ after).
Proof.
  intro H. apply iter_lines_without. intro rest. now apply iter_lines_passed_over.
Qed.

(** A data line that is not the terminator: the loop reaches
    [json.loads]. *)
Lemma iter_lines_frame line rest :
  startswith (lit "data: ") line = true ->
  strip (slice_from 6 line) <> lit "[DONE]" ->
  lines_loop (Delivered line :: rest)
  = match json_loads (slice_from 6 line) with
    | JSONDecodeError => lines_loop rest
    | LoadsRaises desc => [Yield (failure_text (Failure desc))]
    | Decoded chunk_data =>
        match delta_content chunk_data with
        | Err f => [Yield (failure_text (Interp f))]
        | Ok None => lines_loop rest
        | Ok (Some piece) => Yield piece :: lines_loop rest
        end
    end.
Proof.
  intros H1 H2. cbn [iter_lines].
  assert (Ht : truthy line = true) by (destruct line; [discriminate H1 | reflexivity]).
  rewrite Ht, H1. cbn [negb].
  destruct (str_eqb _ _) eqn:E; [|reflexivity].
  apply str_eqb_eq in E. contradiction.
Qed.

Lemma iter_lines_done line rest :
  startswith (lit "data: ") line = true ->
  strip (slice_from 6 line) = lit "[DONE]" ->
  lines_loop (Delivered line :: rest) = [].
Proof.
  intros H1 H2. cbn [iter_lines].
  assert (Ht : truthy line = true) by (destruct line; [discriminate H1 | reflexivity]).
  rewrite Ht, H1, H2. reflexivity.
Qed.

Lemma iter_lines_only_yields items :
  Forall (fun ev => exists v, ev = Yield v) (lines_loop items).
Proof.
  induction items as [|[line|desc] items IH]; cbn [iter_lines].
  - constructor.
  - destruct (negb (truthy line)); [exact IH|].
    destruct (negb (startswith (lit "data: ") line)); [exact IH|].
    destruct (str_eqb _ _); [constructor|].
    destruct (json_loads _) as [chunk_data| |desc]; [|exact IH|eauto].
    destruct (delta_content chunk_data) as [[piece|]|f]; eauto.
  - eauto.
Qed.

(** Where a yielded value comes from: a decoded data line, or the
    [except] clause. *)
Lemma iter_lines_yield_origin items v :
  In (Yield v) (lines_loop items) ->
  (exists line chunk_data,
      In (Delivered line) items
      /\ startswith (lit "data: ") line = true
      /\ str_eqb (strip (slice_from 6 line)) (lit "[DONE]") = false
      /\ json_loads (slice_from 6 line) = Decoded chunk_data
      /\ delta_content chunk_data = Ok (Some v))
  \/ (exists e, v = failure_text e).
Proof.
  induction items as [|[line|desc] items IH]; cbn [iter_lines].
  - intros [].
  - assert (Hrest : In (Yield v) (lines_loop items) ->
              (exists line0 chunk_data,
                  In (Delivered line0) (Delivered line :: items)
                  /\ startswith (lit "data: ") line0 = true
                  /\ str_eqb (strip (slice_from 6 line0)) (lit "[DONE]") = false
                  /\ json_loads (slice_from 6 line0) = Decoded chunk_data
                  /\ delta_content chunk_data = Ok (Some v))
              \/ (exists e, v = failure_text e)).
    { intro H. destruct (IH H) as [(l0 & d & Hin & H')|He]; [left|now right].
      exists l0, d. split; [now right | exact H']. }
    destruct (negb (truthy line)); [exact Hrest|].
    destruct (startswith (lit "data: ") line) eqn:Es; cbn [negb]; [|exact Hrest].
    destruct (str_eqb _ _) eqn:Edone; [intros []|].
    destruct (json_loads _) as [chunk_data| |desc] eqn:Ej; [|exact Hrest|].
    + destruct (delta_content chunk_data) as [[piece|]|f] eqn:Ed.
      * intros [H|H]; [|now apply Hrest].
        injection H as ->. left. exists line, chunk_data.
        repeat split; [now left | exact Es | exact Edone | exact Ej | exact Ed].
      * exact Hrest.
      * intros [H|[]]. injection H as <-. right. eauto.
    + intros [H|[]]. injection H as <-. right. eauto.
  - intros [H|[]]. injection H as <-. right. eauto.
Qed.

Lemma iter_lines_app before after :
  goes_through before = true ->
  lines_loop (before ++ after) = lines_loop before ++ lines_loop after.
Proof.
  induction before as [|[line|desc] before IH]; intro H; [reflexivity| |discriminate H].
  cbn [runs_through] in H. cbn [app iter_lines].
  destruct (negb (truthy line)); [now apply IH|].
  destruct (negb (startswith (lit "data: ") line)); [now apply IH|].
  destruct (str_eqb _ _); [discriminate H|].
  destruct (json_loads _) as [chunk_data| |desc]; [|now apply IH|discriminate H].
  destruct (delta_content chunk_data) as [[piece|]|f];
    [|now apply IH|discriminate H].
  rewrite (IH H). reflexivity.
Qed.


(** ** The stream session *)

Lemma pull_loop_fragments r chunks rest :
  pull_loop r (fragments chunks ++ rest) = pull_loop (add_chunks r chunks) rest.
Proof.
  revert r. induction chunks as [|c cs IH]; intro r; [reflexivity|].
  cbn [fragments List.map app pull_loop]. apply IH.
Qed.

Lemma pull_loop_culprit r v rest :
  is_string v = false ->
  pull_loop r (Yield v :: rest) = (r, Faulted (Interp (NotAString v))).
Proof. destruct v; intro H; try reflexivity; discriminate H. Qed.

Lemma pull_loop_max r src :
  max_visible_lines (fst (pull_loop r src)) = max_visible_lines r.
Proof.
  revert r. induction src as [|ev src IH]; intro r; [reflexivity|].
  destruct ev as [v|e|]; try reflexivity.
  destruct v; try reflexivity. cbn [pull_loop]. rewrite IH. apply add_chunk_max.
Qed.

Lemma pull_loop_word_count r src :
  word_count r = length (split (full_content r)) ->
  word_count (fst (pull_loop r src))
  = length (split (full_content (fst (pull_loop r src)))).
Proof.
  revert r. induction src as [|ev src IH]; intros r H; [exact H|].
  destruct ev as [v|e|]; try exact H.
  destruct v; try exact H. cbn [pull_loop]. apply IH.
  rewrite add_chunk_word_count, add_chunk_full_content. reflexivity.
Qed.

Lemma reset_add_chunks_content r chunks :
  full_content (add_chunks (reset r) chunks) = concat chunks.
Proof. rewrite add_chunks_full_content. reflexivity. Qed.

(** The session touches the renderer only. *)
Lemma session_keeps_snapshot ui api :
  cancelled_stream_state (snd (session ui api)) = cancelled_stream_state ui.
Proof.
  unfold stream_ai_response_with_live_markdown.
  destruct (pull_loop _ _) as [r how]. destruct how; reflexivity.
Qed.

Lemma session_exhausted ui api chunks :
  api (with_renderer ui (reset (markdown_renderer ui))) = fragments chunks ->
  session ui api
  = (Returns (concat chunks),
     with_renderer ui (add_chunks (reset (markdown_renderer ui)) chunks)).
Proof.
  intro H. unfold stream_ai_response_with_live_markdown.
  cbn [markdown_renderer with_renderer]. cbn [markdown_renderer with_renderer] in H.
  rewrite H. rewrite <- (app_nil_r (fragments chunks)), pull_loop_fragments.
  cbn [pull_loop]. rewrite reset_add_chunks_content. reflexivity.
Qed.

Lemma session_interrupted ui api chunks rest :
  api (with_renderer ui (reset (markdown_renderer ui)))
  = fragments chunks ++ KeyboardInterrupt :: rest ->
  session ui api
  = (Returns RESPONSE_CANCELLED,
     with_renderer ui (add_chunks (reset (markdown_renderer ui)) chunks)).
Proof.
  intro H. unfold stream_ai_response_with_live_markdown.
  cbn [markdown_renderer with_renderer]. cbn [markdown_renderer with_renderer] in H.
  rewrite H, pull_loop_fragments. reflexivity.
Qed.

Lemma session_faulted ui api chunks culprit rest e :
  api (with_renderer ui (reset (markdown_renderer ui)))
  = fragments chunks ++ culprit :: rest ->
  raises culprit e ->
  session ui api
  = (shown (CROSS_MARK ++ lit " Error: " ++ describe e)
           (CROSS_MARK ++ lit " Error: " ++ describe e),
     with_renderer ui (add_chunks (reset (markdown_renderer ui)) chunks)).
Proof.
  intros H Hr. unfold stream_ai_response_with_live_markdown.
  cbn [markdown_renderer with_renderer]. cbn [markdown_renderer with_renderer] in H.
  rewrite H, pull_loop_fragments.
  destruct Hr as [-> | (v & -> & Hv & ->)].
  - reflexivity.
  - rewrite pull_loop_culprit by exact Hv. reflexivity.
Qed.

(** *** Results that are and are not answers *)

Lemma startswith_app p s : startswith p (p ++ s) = true.
Proof.
  induction p as [|c p IH]; [reflexivity|]. simpl.
  unfold char_eqb. now rewrite N.eqb_refl.
Qed.

Lemma contains_app needle before after :
  contains needle (before ++ needle ++ after) = true.
Proof.
  induction before as [|c before IH].
  - destruct (needle ++ after) eqn:E; simpl; rewrite <- E, startswith_app; reflexivity.
  - cbn [app contains]. rewrite IH. apply orb_true_r.
Qed.

Lemma error_text_not_cancelled before desc :
  str_eqb (before ++ lit "Error: " ++ desc) RESPONSE_CANCELLED = false.
Proof.
  destruct (str_eqb _ _) eqn:E; [|reflexivity].
  apply str_eqb_eq in E.
  pose proof (contains_app (lit "Error: ") before desc) as H.
  rewrite E in H. vm_compute in H. discriminate H.
Qed.

Lemma sentinel_not_cancelled rest :
  str_eqb (CROSS_MARK ++ rest) RESPONSE_CANCELLED = false.
Proof. reflexivity. Qed.

Lemma sentinel_not_answer rest : is_answer (CROSS_MARK ++ rest) = false.
Proof. reflexivity. Qed.

(** A response that ends in the error text is an answer unless what comes
    before the error text opens with one of the two marks. *)
Lemma is_answer_error_text before desc :
  is_answer (before ++ lit "Error: " ++ desc)
  = negb (startswith CROSS_MARK before) && negb (startswith WARNING_SIGN before).
Proof.
  unfold is_answer.
  destruct before as [|a [|b rest]]; reflexivity.
Qed.

(** [add_conversation] puts the turn at the end of what it keeps of the
    history. *)
Lemma add_conversation_appends cm user_msg ai_response :
  shell_context (add_conversation cm user_msg ai_response) = shell_context cm
  /\ exists dropped kept,
       conversation_history cm = dropped ++ kept
       /\ conversation_history (add_conversation cm user_msg ai_response)
          = kept ++ [mkMessage (lit "user") user_msg;
                     mkMessage (lit "assistant") ai_response].
Proof.
  split; [reflexivity|]. unfold add_conversation. cbn [conversation_history].
  set (turn := [mkMessage (lit "user") user_msg; mkMessage (lit "assistant") ai_response]).
  destruct (Nat.ltb_spec Config.MAX_CONVERSATION_HISTORY
              (length (conversation_history cm ++ turn))) as [H|H].
  - rewrite slice_from_neg by (unfold Config.MAX_CONVERSATION_HISTORY; lia).
    rewrite Nat2Z.id, length_app in *. cbn [length turn] in *.
    unfold Config.MAX_CONVERSATION_HISTORY in *.
    set (k := length (conversation_history cm) + 2 - 20).
    exists (firstn k (conversation_history cm)), (skipn k (conversation_history cm)).
    split; [symmetry; apply firstn_skipn|].
    rewrite skipn_app. replace (k - length (conversation_history cm)) with 0 by (unfold k; lia).
    reflexivity.
  - exists [], (conversation_history cm). split; reflexivity.
Qed.

(** *** One exchange, by the way its stream ends *)

(** The whole of [stream_ai_response], by the way the pull loop is left.
    A response equal to the cancellation mark is treated as a
    cancellation whichever way the loop was left. *)
Lemma exchange_unfold sh user_msg x :
  let messages := build_messages (context_manager sh) user_msg in
  let src := with_interrupt (ctrl_c x) (generator messages (http x)) in
  let r := fst (pull_loop (reset (markdown_renderer (streaming_ui sh))) src) in
  let saved := mkCancelled user_msg (full_content r) messages (now_iso x) (word_count r) in
  let notified :=
    match console_markup (show_cancelled_stream_notification user_msg) with
    | None => Returns RESPONSE_CANCELLED
    | Some msg => report (lit " Streaming error: ") (MarkupError msg)
    end in
  exchange sh user_msg x
  = match snd (pull_loop (reset (markdown_renderer (streaming_ui sh))) src) with
    | Exhausted =>
        if str_eqb (full_content r) RESPONSE_CANCELLED
        then (notified, mkShell (mkUI r (Some saved)) (context_manager sh))
        else (Returns (full_content r),
              mkShell (mkUI r (cancelled_stream_state (streaming_ui sh)))
                      (if is_answer (full_content r)
                       then add_conversation (context_manager sh) user_msg (full_content r)
                       else context_manager sh))
    | Interrupted => (notified, mkShell (mkUI r (Some saved)) (context_manager sh))
    | Faulted e =>
        (match console_markup (CROSS_MARK ++ lit " Error: " ++ describe e) with
         | None => Returns (CROSS_MARK ++ lit " Error: " ++ describe e)
         | Some msg => report (lit " Streaming error: ") (MarkupError msg)
         end,
         mkShell (mkUI r (cancelled_stream_state (streaming_ui sh))) (context_manager sh))
    end.
Proof.
  cbv zeta. unfold stream_ai_response, stream_ai_response_with_live_markdown.
  cbn [markdown_renderer with_renderer].
  destruct (pull_loop _ _) as [r how]. cbn [fst snd].
  destruct how as [| |e].
  - destruct (str_eqb (full_content r) RESPONSE_CANCELLED) eqn:Ec.
    + cbn [markdown_renderer with_renderer]. apply str_eqb_eq in Ec.
      destruct (console_markup (show_cancelled_stream_notification user_msg));
        [reflexivity | now rewrite Ec].
    + destruct (is_answer (full_content r)); reflexivity.
  - rewrite str_eqb_refl. cbn [markdown_renderer with_renderer].
    destruct (console_markup (show_cancelled_stream_notification user_msg)); reflexivity.
  - unfold shown_then.
    destruct (console_markup (CROSS_MARK ++ lit " Error: " ++ describe e)).
    + reflexivity.
    + rewrite sentinel_not_cancelled, sentinel_not_answer. reflexivity.
Qed.

Lemma exchange_exhausted sh user_msg x chunks :
  with_interrupt (ctrl_c x)
    (generator (build_messages (context_manager sh) user_msg) (http x))
  = fragments chunks ->
  str_eqb (concat chunks) RESPONSE_CANCELLED = false ->
  exchange sh user_msg x
  = let ui := with_renderer (streaming_ui sh)
                (add_chunks (reset (markdown_renderer (streaming_ui sh))) chunks) in
    (Returns (concat chunks),
     mkShell ui (if is_answer (concat chunks)
                 then add_conversation (context_manager sh) user_msg (concat chunks)
                 else context_manager sh)).
Proof.
  intros H Hc. unfold stream_ai_response.
  rewrite (session_exhausted (streaming_ui sh) _ chunks H). rewrite Hc.
  cbv zeta. destruct (is_answer (concat chunks)); reflexivity.
Qed.

Lemma exchange_interrupted sh user_msg x chunks rest :
  with_interrupt (ctrl_c x)
    (generator (build_messages (context_manager sh) user_msg) (http x))
  = fragments chunks ++ KeyboardInterrupt :: rest ->
  exchange sh user_msg x
  = let r := add_chunks (reset (markdown_renderer (streaming_ui sh))) chunks in
    (match console_markup (show_cancelled_stream_notification user_msg) with
     | None => Returns RESPONSE_CANCELLED
     | Some msg => report (lit " Streaming error: ") (MarkupError msg)
     end,
     mkShell (mkUI r (Some (mkCancelled user_msg (concat chunks)
                              (build_messages (context_manager sh) user_msg)
                              (now_iso x) (word_count r))))
             (context_manager sh)).
Proof.
  intro H. rewrite exchange_unfold. cbv zeta. rewrite H, pull_loop_fragments.
  cbn [pull_loop fst snd]. rewrite reset_add_chunks_content. reflexivity.
Qed.

Lemma exchange_faulted sh user_msg x chunks culprit rest e :
  with_interrupt (ctrl_c x)
    (generator (build_messages (context_manager sh) user_msg) (http x))
  = fragments chunks ++ culprit :: rest ->
  raises culprit e ->
  exchange sh user_msg x
  = (match console_markup (CROSS_MARK ++ lit " Error: " ++ describe e) with
     | None => Returns (CROSS_MARK ++ lit " Error: " ++ describe e)
     | Some msg => report (lit " Streaming error: ") (MarkupError msg)
     end,
     mkShell (with_renderer (streaming_ui sh)
                (add_chunks (reset (markdown_renderer (streaming_ui sh))) chunks))
             (context_manager sh)).
Proof.
  intros H Hr. unfold stream_ai_response.
  rewrite (session_faulted (streaming_ui sh) _ chunks culprit rest e H Hr).
  unfold shown_then.
  destruct (console_markup (CROSS_MARK ++ lit " Error: " ++ describe e)).
  - reflexivity.
  - rewrite sentinel_not_cancelled, sentinel_not_answer. reflexivity.
Qed.

(** What the [except] clause returns, when it returns, is marked as an
    error. *)
Lemma reported_is_sentinel label e response :
  report label e = Returns response ->
  response = CROSS_MARK ++ label ++ describe e
  /\ startswith CROSS_MARK response = true
  /\ is_answer response = false.
Proof.
  unfold reported, shown_then.
  destruct (console_markup _); [discriminate|].
  intro H. injection H as <-. repeat split.
Qed.

(** How a connection failure shows in the producer's events. *)
Lemma generator_on_failure messages attempt desc before after chunks :
  (attempt = OpenFails desc /\ chunks = []
   \/ attempt = Opened (before ++ Broken desc :: after)
      /\ goes_through before = true /\ lines_loop before = fragments chunks) ->
  generator messages attempt = fragments (chunks ++ [lit "Error: " ++ desc]).
Proof.
  intros [[-> ->] | (-> & Hthrough & Hlines)].
  - reflexivity.
  - cbn [create_api_streaming_generator]. rewrite iter_lines_app by exact Hthrough.
    rewrite Hlines. unfold fragments. rewrite map_app. reflexivity.
Qed.

(** C10, as the code has it.  When the connection fails, at opening or
    after the loop has gone through lines that yielded the string
    fragments [chunks], and the user does not interrupt, the chunk source
    yields "Error: " followed by the description as one more fragment and
    is then exhausted; the response returned is the fragments received so
    far followed by that text, and it is the [full_content]; no cancelled
    state is saved.  The user message and the response are appended to
    the conversation history as a turn unless the fragments received
    before the failure open with U+274C or with U+26A0 U+FE0F, in which
    case the history is left as it was; at opening nothing comes before
    the error text, so the turn is always appended. *)
Theorem C10_connection_failure_turn :
  forall (sh : HybridShell) (user_msg desc : str) (x : Exchange)
         (before after : list wire_item) (chunks : list str),
    ctrl_c x = None ->
    (http x = OpenFails desc /\ chunks = []
     \/ http x = Opened (before ++ Broken desc :: after)
        /\ goes_through before = true /\ lines_loop before = fragments chunks) ->
    let messages := build_messages (context_manager sh) user_msg in
    let failure := lit "Error: " ++ desc in
    let response := concat chunks ++ failure in
    let sh' := snd (exchange sh user_msg x) in
    generator messages (http x) = fragments (chunks ++ [failure])
    /\ fst (exchange sh user_msg x) = Returns response
    /\ full_content (markdown_renderer (streaming_ui sh')) = response
    /\ cancelled_stream_state (streaming_ui sh') = cancelled_stream_state (streaming_ui sh)
    /\ shell_context (context_manager sh') = shell_context (context_manager sh)
    /\ is_answer response
       = negb (startswith CROSS_MARK (concat chunks))
         && negb (startswith WARNING_SIGN (concat chunks))
    /\ (is_answer response = true ->
        exists dropped kept,
          conversation_history (context_manager sh) = dropped ++ kept
          /\ conversation_history (context_manager sh')
             = kept ++ [mkMessage (lit "user") user_msg;
                        mkMessage (lit "assistant") response])
    /\ (is_answer response = false -> context_manager sh' = context_manager sh)
    /\ (chunks = [] -> is_answer response = true).
Proof.
  intros sh user_msg desc x before after chunks Hc Hfail messages failure response.
  pose proof (generator_on_failure messages (http x) desc before after chunks Hfail) as Hgen.
  fold failure in Hgen.
  assert (Hev : with_interrupt (ctrl_c x) (generator messages (http x))
                = fragments (chunks ++ [failure])).
  { rewrite Hc. exact Hgen. }
  assert (Hcat : concat (chunks ++ [failure]) = response).
  { rewrite concat_app. cbn [concat]. now rewrite app_nil_r. }
  assert (Hnc : str_eqb (concat (chunks ++ [failure])) RESPONSE_CANCELLED = false).
  { rewrite Hcat. apply error_text_not_cancelled. }
  rewrite (exchange_exhausted sh user_msg x _ Hev Hnc). cbv zeta. cbn [fst snd].
  rewrite Hcat. cbn [streaming_ui context_manager markdown_renderer with_renderer].
  rewrite reset_add_chunks_content, Hcat.
  pose proof (is_answer_error_text (concat chunks) desc) as Hans.
  fold failure in Hans. fold response in Hans.
  repeat apply conj; try reflexivity.
  - exact Hgen.
  - destruct (is_answer response);
      [apply add_conversation_appends | reflexivity].
  - exact Hans.
  - intro H. rewrite H.
    destruct (add_conversation_appends (context_manager sh) user_msg response)
      as [_ Happ]. exact Happ.
  - intro H. rewrite H. reflexivity.
  - intros ->. reflexivity.
Qed.


(** ** Cancellation and resume *)

Lemma resume_seeded_renderer ui saved :
  markdown_renderer (resume_seeded ui saved)
  = mkRenderer (max_visible_lines (markdown_renderer ui)) []
               (snap_partial_content saved) []
               (length (split (snap_partial_content saved))).
Proof. reflexivity. Qed.

Lemma resume_unfold ui saved now api :
  cancelled_stream_state ui = Some saved ->
  resume ui now api
  = let started := resume_seeded ui saved in
    let r := fst (pull_loop (markdown_renderer started) (api started)) in
    match snd (pull_loop (markdown_renderer started) (api started)) with
    | Exhausted => (Returns (full_content r), mkUI r None)
    | Interrupted =>
        (Returns RESUME_CANCELLED,
         mkUI r (Some (mkCancelled (snap_user_message saved) (full_content r)
                                   (snap_messages saved) now (word_count r))))
    | Faulted e =>
        (match console_markup (CROSS_MARK ++ lit " Resume Error: " ++ describe e) with
         | None => Returns (CROSS_MARK ++ lit " Resume Error: " ++ describe e)
         | Some msg => Raises (MarkupError msg)
         end,
         mkUI r (Some saved))
    end.
Proof.
  intro H. unfold _resume_cancelled_stream. rewrite H. cbv zeta.
  destruct (pull_loop _ _) as [r how]. cbn [fst snd].
  destruct how;
    unfold clear_cancelled_state, save_cancelled_state, with_renderer, get_word_count,
           shown_then;
    change (cancelled_stream_state (resume_seeded ui saved))
      with (cancelled_stream_state ui);
    rewrite ?H; reflexivity.
Qed.


(** What an exchange that returns the cancellation mark leaves. *)
Lemma exchange_cancelled_saved sh user_msg x :
  fst (exchange sh user_msg x) = Returns RESPONSE_CANCELLED ->
  exists r,
    snd (exchange sh user_msg x)
    = mkShell (mkUI r (Some (mkCancelled user_msg (full_content r)
                               (build_messages (context_manager sh) user_msg)
                               (now_iso x) (word_count r))))
              (context_manager sh)
    /\ word_count r = length (split (full_content r))
    /\ max_visible_lines r = max_visible_lines (markdown_renderer (streaming_ui sh))
    /\ console_markup (show_cancelled_stream_notification user_msg) = None.
Proof.
  rewrite exchange_unfold. cbv zeta.
  set (src := with_interrupt _ _).
  pose proof (pull_loop_word_count (reset (markdown_renderer (streaming_ui sh))) src eq_refl)
    as Hw.
  pose proof (pull_loop_max (reset (markdown_renderer (streaming_ui sh))) src) as Hm.
  destruct (pull_loop _ src) as [r how]. cbn [fst snd] in *.
  assert (Hnot : forall msg,
            report (lit " Streaming error: ") (MarkupError msg)
            <> Returns RESPONSE_CANCELLED).
  { intros msg H. apply reported_is_sentinel in H. destruct H as (_ & H & _).
    discriminate H. }
  assert (Hsaved : fst (match console_markup (show_cancelled_stream_notification user_msg) with
                        | None => Returns RESPONSE_CANCELLED
                        | Some msg => report (lit " Streaming error: ") (MarkupError msg)
                        end,
                        mkShell (mkUI r (Some (mkCancelled user_msg (full_content r)
                                   (build_messages (context_manager sh) user_msg)
                                   (now_iso x) (word_count r))))
                                (context_manager sh))
                   = Returns RESPONSE_CANCELLED ->
                   console_markup (show_cancelled_stream_notification user_msg) = None).
  { cbn [fst]. destruct (console_markup _) as [msg|]; [|reflexivity].
    intro H. destruct (Hnot msg H). }
  destruct how as [| |e].
  - destruct (str_eqb (full_content r) RESPONSE_CANCELLED) eqn:Ec.
    + intro H. exists r. cbn [snd]. auto.
    + cbn [fst]. intro H. injection H as H. apply str_eqb_eq in H. congruence.
  - intro H. exists r. cbn [snd]. auto.
  - cbn [fst].
    destruct (console_markup (CROSS_MARK ++ lit " Error: " ++ describe e)) as [msg|].
    + intro H. destruct (Hnot msg H).
    + intro H. injection H as H. discriminate H.
Qed.

(** C2.  When an exchange is cancelled, the content saved is the
    [full_content] at that moment, which is the fragments received so
    far.  A resume then runs its pull loop from a renderer whose
    [full_content] is that content, whose line in progress and line store
    are empty, and whose [word_count] is the number of
    whitespace-separated words of that content, and that is the renderer
    the manager holds when the producer is opened: a resumed stream that
    yields nothing leaves exactly this renderer, and a first fragment
    without a line break becomes the line in progress by itself.  The
    resumed stream's fragments are appended to the saved content: a
    resumed stream that yields [chunks] and ends returns the saved
    content followed by [chunks]. *)
Theorem C2_resume_seeds_partial_content :
  forall (sh : HybridShell) (user_msg : str) (x : Exchange),
    (fst (exchange sh user_msg x) = Returns RESPONSE_CANCELLED
     \/ exists chunks rest,
          with_interrupt (ctrl_c x)
            (generator (build_messages (context_manager sh) user_msg) (http x))
          = fragments chunks ++ KeyboardInterrupt :: rest) ->
    let ui := streaming_ui (snd (exchange sh user_msg x)) in
    exists saved,
      cancelled_stream_state ui = Some saved
      /\ snap_partial_content saved = full_content (markdown_renderer ui)
      /\ (forall chunks rest,
            with_interrupt (ctrl_c x)
              (generator (build_messages (context_manager sh) user_msg) (http x))
            = fragments chunks ++ KeyboardInterrupt :: rest ->
            snap_partial_content saved = concat chunks)
      /\ let P := snap_partial_content saved in
         let seeded := markdown_renderer (resume_seeded ui saved) in
         let before_fragments :=
           mkRenderer (max_visible_lines (markdown_renderer ui)) [] P []
                      (length (split P)) in
         full_content seeded = P
         /\ current_line seeded = []
         /\ rolling_buffer seeded = []
         /\ word_count seeded = length (split P)
         /\ (forall now chunks,
               fst (resume ui now (fun _ => fragments chunks))
               = Returns (P ++ concat chunks))
         /\ (forall now api,
               resume ui now api
               = resume ui now (fun _ => api (mkUI before_fragments (Some saved)))
               /\ markdown_renderer (snd (resume ui now api))
                  = fst (pull_loop before_fragments
                           (api (mkUI before_fragments (Some saved)))))
         /\ (forall now,
               markdown_renderer (snd (resume ui now (fun _ => [])))
               = before_fragments)
         /\ (forall now chunk,
               mem_char NL chunk = false ->
               let r1 := markdown_renderer
                           (snd (resume ui now (fun _ => fragments [chunk]))) in
               current_line r1 = chunk
               /\ rolling_buffer r1 = []
               /\ full_content r1 = P ++ chunk
               /\ word_count r1 = length (split (P ++ chunk))).
Proof.
  intros sh user_msg x Hcancelled ui.
  assert (Hshape : exists r,
             snd (exchange sh user_msg x)
             = mkShell (mkUI r (Some (mkCancelled user_msg (full_content r)
                                        (build_messages (context_manager sh) user_msg)
                                        (now_iso x) (word_count r))))
                       (context_manager sh)
             /\ (forall chunks rest,
                   with_interrupt (ctrl_c x)
                     (generator (build_messages (context_manager sh) user_msg) (http x))
                   = fragments chunks ++ KeyboardInterrupt :: rest ->
                   full_content r = concat chunks)).
  { assert (Hcontent : forall chunks rest,
              with_interrupt (ctrl_c x)
                (generator (build_messages (context_manager sh) user_msg) (http x))
              = fragments chunks ++ KeyboardInterrupt :: rest ->
              snd (exchange sh user_msg x)
              = mkShell (mkUI (add_chunks (reset (markdown_renderer (streaming_ui sh))) chunks)
                           (Some (mkCancelled user_msg (concat chunks)
                                    (build_messages (context_manager sh) user_msg)
                                    (now_iso x)
                                    (word_count
                                       (add_chunks (reset (markdown_renderer (streaming_ui sh)))
                                                   chunks)))))
                        (context_manager sh)).
    { intros chunks rest H. now rewrite (exchange_interrupted sh user_msg x chunks rest H). }
    destruct Hcancelled as [H | (chunks & rest & H)].
    - destruct (exchange_cancelled_saved sh user_msg x H) as (r & Hsh & _).
      exists r. split; [exact Hsh|].
      intros chunks rest Hs. rewrite (Hcontent chunks rest Hs) in Hsh.
      injection Hsh as Hr _. rewrite <- Hr. apply reset_add_chunks_content.
    - exists (add_chunks (reset (markdown_renderer (streaming_ui sh))) chunks).
      rewrite reset_add_chunks_content. split; [exact (Hcontent chunks rest H)|].
      intros chunks' rest' H'. rewrite H in H'.
      pose proof (Hcontent chunks rest H) as E1.
      rewrite H in Hcontent. pose proof (Hcontent chunks' rest' H') as E2.
      rewrite E1 in E2. injection E2 as _ E2. exact E2. }
  destruct Hshape as (r & Hsh & Hcontent).
  unfold ui. clear ui. rewrite Hsh. cbn [streaming_ui].
  set (saved := mkCancelled user_msg (full_content r)
                  (build_messages (context_manager sh) user_msg)
                  (now_iso x) (word_count r)).
  exists saved. split; [reflexivity|]. split; [reflexivity|].
  split; [exact Hcontent|].
  cbv zeta. cbn [snap_partial_content saved markdown_renderer max_visible_lines].
  assert (Hloop : forall now api,
            markdown_renderer (snd (resume (mkUI r (Some saved)) now api))
            = fst (pull_loop
                     (mkRenderer (max_visible_lines r) [] (full_content r) []
                                 (length (split (full_content r))))
                     (api (mkUI (mkRenderer (max_visible_lines r) [] (full_content r) []
                                            (length (split (full_content r))))
                                (Some saved))))).
  { intros now api.
    rewrite (resume_unfold (mkUI r (Some saved)) saved now api eq_refl). cbv zeta.
    change (resume_seeded (mkUI r (Some saved)) saved)
      with (mkUI (mkRenderer (max_visible_lines r) [] (full_content r) []
                             (length (split (full_content r))))
                 (Some saved)).
    cbn [markdown_renderer].
    destruct (pull_loop _ _) as [r' how]. destruct how; reflexivity. }
  repeat split.
  - intros now chunks.
    rewrite (resume_unfold (mkUI r (Some saved)) saved now
               (fun _ => fragments chunks) eq_refl). cbv zeta.
    rewrite <- (app_nil_r (fragments chunks)), pull_loop_fragments.
    cbn [pull_loop fst snd]. rewrite add_chunks_full_content. reflexivity.
  - apply Hloop.
  - rewrite Hloop. cbn [fragments List.map pull_loop fst].
    unfold add_chunk. cbn [current_line app]. rewrite H. reflexivity.
  - rewrite Hloop. cbn [fragments List.map pull_loop fst].
    unfold add_chunk. cbn [current_line app rolling_buffer]. rewrite H.
    cbn [rolling_buffer length]. destruct (_ >? _)%Z; [|reflexivity].
    unfold slice_from. apply skipn_nil.
  - rewrite Hloop. cbn [fragments List.map pull_loop fst].
    rewrite add_chunk_full_content. reflexivity.
  - rewrite Hloop. cbn [fragments List.map pull_loop fst].
    rewrite add_chunk_word_count. reflexivity.
Qed.

End RuntimeFacts.

(** ** The theorems on sample exchanges *)



Lemma C2_resume_seeds_partial_content_witness :
  fst (stream_ai_response sample_json_loads sample_interp_msg sample_console_markup
         new_shell QUESTION answer_exchange) = Returns RESPONSE_CANCELLED
  /\ exists saved,
       cancelled_stream_state (streaming_ui cancelled_shell) = Some saved
       /\ snap_partial_content saved = lit "The answer is 4"
       /\ full_content (markdown_renderer (resume_seeded (streaming_ui cancelled_shell) saved))
          = lit "The answer is 4"
       /\ current_line (markdown_renderer (resume_seeded (streaming_ui cancelled_shell) saved))
          = []
       /\ word_count (markdown_renderer (resume_seeded (streaming_ui cancelled_shell) saved))
          = 4
       /\ markdown_renderer
            (snd (_resume_cancelled_stream sample_interp_msg sample_console_markup
                    (streaming_ui cancelled_shell) (lit "2026-01-01T12:05:00")
                    (fun _ => [])))
          = mkRenderer 20 [] (lit "The answer is 4") [] 4
       /\ current_line
            (markdown_renderer
               (snd (_resume_cancelled_stream sample_interp_msg sample_console_markup
                       (streaming_ui cancelled_shell) (lit "2026-01-01T12:05:00")
                       (fun _ => fragments [lit " and"]))))
          = lit " and".
Proof.
  assert (H : fst (stream_ai_response sample_json_loads sample_interp_msg
                     sample_console_markup new_shell QUESTION answer_exchange)
              = Returns RESPONSE_CANCELLED)
    by (vm_compute; reflexivity).
  split; [exact H|].
  destruct (C2_resume_seeds_partial_content sample_json_loads sample_interp_msg
              sample_console_markup new_shell QUESTION answer_exchange (or_introl H))
    as (saved & Hs & Hp & _ & Hf & Hc & _ & Hw & _ & _ & Hnone & Hfirst).
  assert (HP : snap_partial_content saved = lit "The answer is 4").
  { rewrite Hp. vm_compute. reflexivity. }
  exists saved. split; [exact Hs|]. split; [exact HP|].
  split; [rewrite <- HP; exact Hf|]. split; [exact Hc|].
  split; [unfold cancelled_shell; rewrite Hw, HP; reflexivity|].
  split.
  - unfold cancelled_shell. rewrite (Hnone (lit "2026-01-01T12:05:00")), HP.
    reflexivity.
  - exact (proj1 (Hfirst (lit "2026-01-01T12:05:00") (lit " and") eq_refl)).
Defined.



Lemma C10_connection_failure_turn_witness :
  (ctrl_c refused_exchange = None
   /\ http refused_exchange = OpenFails (lit "Connection refused")
   /\ fst (stream_ai_response sample_json_loads sample_interp_msg sample_console_markup
             new_shell QUESTION refused_exchange)
      = Returns (lit "Error: Connection refused")
   /\ is_answer (lit "Error: Connection refused") = true)
  /\ (ctrl_c dropped_plain_exchange = None
      /\ http dropped_plain_exchange
         = Opened ([data_line (lit "Sure, ")] ++ Broken (lit "Connection reset") :: [])
      /\ runs_through sample_json_loads [data_line (lit "Sure, ")] = true
      /\ iter_lines sample_json_loads sample_interp_msg [data_line (lit "Sure, ")]
         = fragments [lit "Sure, "]
      /\ fst (stream_ai_response sample_json_loads sample_interp_msg sample_console_markup
                new_shell QUESTION dropped_plain_exchange)
         = Returns (lit "Sure, Error: Connection reset")
      /\ is_answer (lit "Sure, Error: Connection reset") = true).
Proof.
  split.
  - assert (Hc : ctrl_c refused_exchange = None) by reflexivity.
    assert (Hh : http refused_exchange = OpenFails (lit "Connection refused"))
      by reflexivity.
    destruct (C10_connection_failure_turn sample_json_loads sample_interp_msg
                sample_console_markup new_shell
                QUESTION (lit "Connection refused") refused_exchange [] [] [] Hc
                (or_introl (conj Hh eq_refl)))
      as (_ & H2 & _ & _ & _ & _ & _ & _ & H9).
    exact (conj Hc (conj Hh (conj H2 (H9 eq_refl)))).
  - assert (Hc : ctrl_c dropped_plain_exchange = None) by reflexivity.
    assert (Hh : http dropped_plain_exchange
                 = Opened ([data_line (lit "Sure, ")]
                             ++ Broken (lit "Connection reset") :: []))
      by reflexivity.
    assert (Ht : runs_through sample_json_loads [data_line (lit "Sure, ")] = true)
      by (vm_compute; reflexivity).
    assert (Hl : iter_lines sample_json_loads sample_interp_msg [data_line (lit "Sure, ")]
                 = fragments [lit "Sure, "])
      by (vm_compute; reflexivity).
    destruct (C10_connection_failure_turn sample_json_loads sample_interp_msg
                sample_console_markup new_shell
                QUESTION (lit "Connection reset") dropped_plain_exchange
                [data_line (lit "Sure, ")] [] [lit "Sure, "] Hc
                (or_intror (conj Hh (conj Ht Hl))))
      as (_ & H2 & _ & _ & _ & H6 & _).
    refine (conj Hc (conj Hh (conj Ht (conj Hl (conj H2 _))))).
    change (lit "Sure, Error: Connection reset")
      with (concat [lit "Sure, "] ++ lit "Error: " ++ lit "Connection reset").
    rewrite H6. reflexivity.
Defined.

(** C10 as stated fails.  The connection breaks after the fragment
    "<U+274C> no".  The chunk source yields the error text as one more
    fragment and is exhausted, the text is accumulated and returned, but
    the response opens with U+274C and nothing is appended to the
    conversation history. *)
Lemma C10_turn_not_recorded_after_marked_fragment :
  create_api_streaming_generator sample_json_loads sample_interp_msg
    (build_messages (context_manager new_shell) QUESTION) (http dropped_exchange)
  = fragments [CROSS_MARK ++ lit " no"; lit "Error: Connection reset"]
  /\ fst (stream_ai_response sample_json_loads sample_interp_msg sample_console_markup
            new_shell QUESTION dropped_exchange)
     = Returns (CROSS_MARK ++ lit " noError: Connection reset")
  /\ full_content
       (markdown_renderer
          (streaming_ui (snd (stream_ai_response sample_json_loads sample_interp_msg
                                sample_console_markup new_shell QUESTION
                                dropped_exchange))))
     = CROSS_MARK ++ lit " noError: Connection reset"
  /\ conversation_history
       (context_manager (snd (stream_ai_response sample_json_loads sample_interp_msg
                                sample_console_markup new_shell QUESTION
                                dropped_exchange)))
     = [].
Proof. vm_compute. repeat split; reflexivity. Qed.

(** The resume scenario through [HybridShell.resume_cancelled_stream]: the
    reopened stream runs to its terminator, the response is the saved
    content followed by the new fragments, the saved state is cleared and
    the turn is recorded. *)
Example resume_scenario :
  let x := mkExchange (http answer_exchange) None (lit "2026-01-01T12:05:00") in
  let result :=
    resume_cancelled_stream sample_json_loads sample_interp_msg sample_console_markup
      cancelled_shell x in
  fst result = Returns (Some (lit "The answer is 4The answer is 4, as you know."))
  /\ has_cancelled_stream (streaming_ui (snd result)) = false
  /\ length (conversation_history (context_manager (snd result))) = 2.
Proof. vm_compute. repeat split; reflexivity. Qed.

(** * More properties *)

(** ** The window of the rolling buffer *)

Lemma split_on_clean sep (s : str) :
  mem_char sep s = false -> split_on sep s = [s].
Proof.
  induction s as [|c s IH]; simpl; intro H; [reflexivity|].
  unfold mem_char in H. simpl in H. apply orb_false_iff in H as [Hc Hs].
  unfold char_eqb in *. rewrite N.eqb_sym, Hc. now rewrite IH.
Qed.

(** Splitting a text that has grown: the pieces before the last are
    kept, and the last piece is split again with what was added. *)
Lemma split_on_grow sep (s added : str) :
  split_on sep (s ++ added)
  = removelast (split_on sep s) ++ split_on sep (last (split_on sep s) [] ++ added).
Proof.
  induction s as [|a s IH]; [reflexivity|].
  cbn [app split_on]. destruct (char_eqb a sep) eqn:Ea.
  - rewrite IH. pose proof (split_on_nonempty sep s) as Hne.
    destruct (split_on sep s) as [|w ws]; [congruence|]. reflexivity.
  - rewrite IH. pose proof (split_on_nonempty sep s) as Hne.
    destruct (split_on sep s) as [|w ws]; [congruence|].
    destruct ws as [|x ws].
    + cbn [removelast last app split_on]. rewrite Ea. reflexivity.
    + pose proof (split_on_nonempty sep (last (x :: ws) [] ++ added)) as Hne2.
      change (removelast (w :: x :: ws)) with (w :: removelast (x :: ws)).
      change (removelast ((a :: w) :: x :: ws)) with ((a :: w) :: removelast (x :: ws)).
      change (last (w :: x :: ws) []) with (last (x :: ws) []).
      change (last ((a :: w) :: x :: ws) []) with (last (x :: ws) []).
      reflexivity.
Qed.

Lemma last_items_app {A} (m : nat) (a b : list A) :
  last_items m (last_items m a ++ b) = last_items m (a ++ b).
Proof.
  unfold last_items.
  assert (H : skipn (length a - m) a ++ b = skipn (length a - m) (a ++ b)).
  { rewrite skipn_app. replace (length a - m - length a) with 0 by lia. reflexivity. }
  rewrite H, skipn_skipn. f_equal.
  rewrite length_skipn, length_app. lia.
Qed.

Lemma add_chunk_store r chunk :
  (1 <= max_visible_lines r)%Z ->
  rolling_buffer (add_chunk r chunk)
  = last_items (Z.to_nat (max_visible_lines r)) (rolling_buffer r ++ completed_by r chunk).
Proof.
  intro Hm. rewrite add_chunk_rolling_buffer. cbv zeta. unfold last_items.
  destruct (Z.gtb_spec (Z.of_nat (length (rolling_buffer r ++ completed_by r chunk)))
              (max_visible_lines r)) as [Hgt|Hle].
  - now apply slice_from_neg.
  - replace (length (rolling_buffer r ++ completed_by r chunk)
             - Z.to_nat (max_visible_lines r)) with 0 by lia.
    reflexivity.
Qed.

Lemma add_chunk_current_line r chunk :
  current_line (add_chunk r chunk) = last (split_on NL (current_line r ++ chunk)) [].
Proof.
  unfold add_chunk. destruct (mem_char NL (current_line r ++ chunk)) eqn:E.
  - reflexivity.
  - cbn [current_line]. rewrite split_on_clean by exact E. reflexivity.
Qed.

Lemma completed_by_lines r chunk :
  completed_by r chunk = removelast (split_on NL (current_line r ++ chunk)).
Proof.
  unfold completed_by. destruct (mem_char NL (current_line r ++ chunk)) eqn:E.
  - reflexivity.
  - rewrite split_on_clean by exact E. reflexivity.
Qed.

Lemma add_chunk_window r chunk :
  (1 <= max_visible_lines r)%Z ->
  window_of_text r -> window_of_text (add_chunk r chunk).
Proof.
  intros Hm [Hcur Hbuf]. unfold window_of_text. cbv zeta.
  rewrite add_chunk_full_content, add_chunk_current_line, add_chunk_max,
    add_chunk_store, completed_by_lines by exact Hm.
  rewrite (split_on_grow NL (full_content r) chunk), <- Hcur.
  pose proof (split_on_nonempty NL (current_line r ++ chunk)) as Hne.
  set (fresh := split_on NL (current_line r ++ chunk)) in *.
  set (older := removelast (split_on NL (full_content r))) in *.
  clearbody fresh. destruct (exists_last Hne) as (init & final & ->).
  rewrite (app_assoc older), !last_last, !removelast_last.
  split; [reflexivity|].
  rewrite Hbuf. apply last_items_app.
Qed.

Lemma add_chunks_window r chunks :
  (1 <= max_visible_lines r)%Z ->
  window_of_text r -> window_of_text (add_chunks r chunks).
Proof.
  revert r. induction chunks as [|c cs IH]; intros r Hm H; [exact H|].
  cbn [add_chunks fold_left]. apply IH; [now rewrite add_chunk_max|].
  now apply add_chunk_window.
Qed.

(** X1.  With [max_visible_lines >= 1], after any fragments fed to a
    reset buffer the line in progress is the last line of the whole text
    received, and the line store is exactly the last [max_visible_lines]
    of the lines before it; a line break always ends a line, so blank
    lines are kept. *)
Theorem X1_window_is_end_of_text :
  forall (r0 : LiveMarkdownStreamRenderer) (chunks : list str),
    (1 <= max_visible_lines r0)%Z ->
    let r := add_chunks (reset r0) chunks in
    let lines := split_on NL (concat chunks) in
    let completed := removelast lines in
    current_line r = last lines []
    /\ rolling_buffer r
       = skipn (length completed - Z.to_nat (max_visible_lines r0)) completed
    /\ (exists scrolled_off,
          lines = scrolled_off ++ rolling_buffer r ++ [current_line r]).
Proof.
  intros r0 chunks Hm r lines completed.
  assert (Hw : window_of_text r).
  { apply add_chunks_window; [exact Hm|]. split; reflexivity. }
  destruct Hw as [Hcur Hbuf]. unfold r in Hcur, Hbuf.
  rewrite reset_add_chunks_content, add_chunks_max in *.
  fold lines in Hcur, Hbuf. fold completed in Hbuf. fold r in Hcur, Hbuf.
  cbn [reset max_visible_lines] in Hbuf.
  split; [exact Hcur|]. split; [exact Hbuf|].
  exists (firstn (length completed - Z.to_nat (max_visible_lines r0)) completed).
  rewrite Hbuf, Hcur. unfold last_items. rewrite app_assoc, firstn_skipn.
  apply app_removelast_last. apply split_on_nonempty.
Qed.

Lemma X1_window_is_end_of_text_witness :
  (1 <= max_visible_lines (new_renderer 1))%Z
  /\ current_line (add_chunks (reset (new_renderer 1)) scenario_fragments)
     = lit "second line"
  /\ rolling_buffer (add_chunks (reset (new_renderer 1)) scenario_fragments)
     = [lit "Hello world"].
Proof.
  assert (H : (1 <= max_visible_lines (new_renderer 1))%Z) by (simpl; lia).
  destruct (X1_window_is_end_of_text (new_renderer 1) scenario_fragments H)
    as (H1 & H2 & _).
  split; [exact H|]. split; [rewrite H1 | rewrite H2]; vm_compute; reflexivity.
Defined.

(** ** Empty fragments *)

Lemma add_chunk_in_order r chunk :
  (1 <= max_visible_lines r)%Z ->
  buffer_in_order r -> buffer_in_order (add_chunk r chunk).
Proof.
  intros Hm (Hc & Hb & Hw). split; [now apply add_chunk_clean|]. split.
  - rewrite add_chunk_max. now apply add_chunk_bounded.
  - rewrite add_chunk_word_count, add_chunk_full_content. reflexivity.
Qed.

Lemma add_chunk_empty r :
  buffer_in_order r -> add_chunk r [] = r.
Proof.
  intros ([Hbuf Hcur] & Hb & Hw). unfold add_chunk.
  rewrite !app_nil_r, Hcur.
  destruct (Z.gtb_spec (Z.of_nat (length (rolling_buffer r))) (max_visible_lines r))
    as [Hgt|Hle]; [lia|].
  rewrite <- Hw. destruct r; reflexivity.
Qed.

Lemma add_chunks_skip_empty r chunks :
  (1 <= max_visible_lines r)%Z ->
  buffer_in_order r ->
  add_chunks r (create_streaming_api_generator chunks) = add_chunks r chunks.
Proof.
  revert r. induction chunks as [|c cs IH]; intros r Hm Hr; [reflexivity|].
  unfold create_streaming_api_generator in *. cbn [filter].
  destruct c as [|a c]; cbn [truthy].
  - cbn [add_chunks fold_left]. rewrite (add_chunk_empty r Hr). now apply IH.
  - cbn [add_chunks fold_left]. apply IH; [now rewrite add_chunk_max|].
    now apply add_chunk_in_order.
Qed.

Lemma add_chunks_in_order r chunks :
  (1 <= max_visible_lines r)%Z ->
  buffer_in_order r -> buffer_in_order (add_chunks r chunks).
Proof.
  revert r. induction chunks as [|c cs IH]; intros r Hm Hr; [exact Hr|].
  cbn [add_chunks fold_left]. apply IH; [now rewrite add_chunk_max|].
  now apply add_chunk_in_order.
Qed.

Lemma reset_in_order r :
  (1 <= max_visible_lines r)%Z -> buffer_in_order (reset r).
Proof.
  intro Hm. split; [apply reset_clean|]. split; [simpl; lia | reflexivity].
Qed.

(** X2.  With [max_visible_lines >= 1], an empty fragment leaves a buffer
    that was reset and fed any fragments exactly as it was, so feeding
    the fragments through [create_streaming_api_generator], which drops
    the empty ones, gives the same buffer as feeding them all; and the
    word count is at every moment the number of words of the text. *)
Theorem X2_empty_fragments_change_nothing :
  forall (r0 : LiveMarkdownStreamRenderer) (chunks : list str),
    (1 <= max_visible_lines r0)%Z ->
    let r := add_chunks (reset r0) chunks in
    add_chunk r [] = r
    /\ add_chunks (reset r0) (create_streaming_api_generator chunks) = r
    /\ get_word_count r = length (split (concat chunks)).
Proof.
  intros r0 chunks Hm r.
  assert (H0 : buffer_in_order (reset r0)) by now apply reset_in_order.
  assert (Hr : buffer_in_order r) by now apply add_chunks_in_order.
  split; [now apply add_chunk_empty|]. split.
  - now apply add_chunks_skip_empty.
  - destruct Hr as (_ & _ & Hw). unfold get_word_count. rewrite Hw.
    unfold r. now rewrite reset_add_chunks_content.
Qed.

Lemma X2_empty_fragments_change_nothing_witness :
  (1 <= max_visible_lines (new_renderer 20))%Z
  /\ add_chunks (reset (new_renderer 20))
       (create_streaming_api_generator [lit "a "; []; lit "b" ++ [NL]; []])
     = add_chunks (reset (new_renderer 20)) [lit "a "; []; lit "b" ++ [NL]; []].
Proof.
  assert (H : (1 <= max_visible_lines (new_renderer 20))%Z) by (simpl; lia).
  destruct (X2_empty_fragments_change_nothing (new_renderer 20)
              [lit "a "; []; lit "b" ++ [NL]; []] H) as (_ & H2 & _).
  exact (conj H H2).
Defined.

(** ** The context store, continued *)

(** The first entry of the ranking stands in the store after entries
    that are strictly older and before entries that are not newer. *)
Lemma sorted_recent_first_head l e rest :
  sorted_recent_first l = e :: rest ->
  exists before after,
    l = before ++ e :: after
    /\ Forall (fun y => (epoch_time y < epoch_time e)%Z) before
    /\ Forall (fun y => (epoch_time y <= epoch_time e)%Z) after.
Proof.
  revert e rest. induction l as [|a l IH]; intros e rest H; [discriminate H|].
  cbn [sorted_recent_first fold_right] in H.
  change (fold_right insert_desc [] l) with (sorted_recent_first l) in H.
  destruct (sorted_recent_first l) as [|h tl] eqn:Es.
  - cbn [insert_desc] in H. injection H as <- <-.
    assert (l = []).
    { pose proof (sorted_recent_first_length l) as Hl. rewrite Es in Hl.
      destruct l; [reflexivity | discriminate Hl]. }
    subst l. exists [], []. repeat split; constructor.
  - cbn [insert_desc] in H.
    destruct (IH h tl eq_refl) as (before & after & Hl & Hb & Ha).
    destruct (Z.ltb_spec (epoch_time a) (epoch_time h)) as [Hlt|Hge].
    + injection H as <- <-. exists (a :: before), after. subst l.
      repeat split; [constructor; assumption | exact Ha].
    + injection H as <- <-. exists [], l. split; [reflexivity|].
      split; [constructor|]. subst l. apply Forall_app. split.
      * eapply Forall_impl; [|exact Hb]. intros y Hy. cbv beta in Hy. lia.
      * constructor; [exact Hge|].
        eapply Forall_impl; [|exact Ha]. intros y Hy. cbv beta in Hy. lia.
Qed.

(** X3.  [get_latest_command_context] returns nothing exactly when the
    store is empty.  Otherwise it returns an entry of the store with the
    greatest [epoch_time]; when several entries share that time it is the
    one inserted first among them.  It is the entry the AI context ranks
    first. *)
Theorem X3_latest_command_context :
  forall cm : ContextManager,
    match get_latest_command_context cm with
    | None => shell_context cm = []
    | Some e =>
        (exists before after,
            shell_context cm = before ++ e :: after
            /\ Forall (fun y => (epoch_time y < epoch_time e)%Z) before
            /\ Forall (fun y => (epoch_time y <= epoch_time e)%Z) after)
        /\ nth_error (sorted_recent_first (shell_context cm)) 0 = Some e
    end.
Proof.
  intro cm. unfold get_latest_command_context.
  destruct (shell_context cm) as [|a l] eqn:E; [reflexivity|].
  destruct (sorted_recent_first (a :: l)) as [|e rest] eqn:Es.
  - pose proof (sorted_recent_first_length (a :: l)) as Hl. rewrite Es in Hl.
    discriminate Hl.
  - cbn [hd_error]. split; [|reflexivity].
    now apply (sorted_recent_first_head (a :: l) e rest).
Qed.

Lemma flat_map_turns_length (turns : list (str * str)) :
  length (flat_map turn_messages turns) = 2 * length turns.
Proof. induction turns as [|t ts IH]; simpl; [reflexivity | rewrite IH; lia]. Qed.

Lemma skipn_2_turns (turns : list (str * str)) :
  skipn 2 (flat_map turn_messages turns) = flat_map turn_messages (skipn 1 turns).
Proof. destruct turns; reflexivity. Qed.

Lemma add_conversation_history cm user_msg ai_response :
  conversation_history (add_conversation cm user_msg ai_response)
  = last_items Config.MAX_CONVERSATION_HISTORY
      (conversation_history cm ++ turn_messages (user_msg, ai_response)).
Proof.
  unfold add_conversation, last_items, turn_messages. cbn [conversation_history fst snd].
  set (h := conversation_history cm ++ _).
  destruct (Nat.ltb_spec Config.MAX_CONVERSATION_HISTORY (length h)) as [H|H].
  - rewrite slice_from_neg by (unfold Config.MAX_CONVERSATION_HISTORY; lia).
    now rewrite Nat2Z.id.
  - replace (length h - Config.MAX_CONVERSATION_HISTORY) with 0 by lia. reflexivity.
Qed.

Lemma add_conversations_snoc cm turns turn :
  add_conversations cm (turns ++ [turn])
  = add_conversation (add_conversations cm turns) (fst turn) (snd turn).
Proof. unfold add_conversations. rewrite fold_left_app. reflexivity. Qed.

(** X4.  After any number of turns recorded into an empty store the
    conversation history is the last ten turns, whole and in order, each
    a user message followed by the assistant's; and whatever the history
    was, after [add_conversation] it has at most
    [MAX_CONVERSATION_HISTORY] messages. *)
Theorem X4_conversation_keeps_last_turns :
  forall (turns : list (str * str)),
    conversation_history (add_conversations new_context_manager turns)
    = flat_map turn_messages (skipn (length turns - 10) turns)
    /\ (forall cm user_msg ai_response,
          length (conversation_history (add_conversation cm user_msg ai_response))
          <= Config.MAX_CONVERSATION_HISTORY).
Proof.
  intro turns. split.
  - induction turns as [|turn turns IH] using rev_ind; [reflexivity|].
    rewrite add_conversations_snoc, add_conversation_history, IH. clear IH.
    destruct turn as [u a]. cbn [fst snd].
    change (turn_messages (u, a)) with (flat_map turn_messages [(u, a)]).
    rewrite <- flat_map_app, length_app. cbn [length].
    unfold last_items, Config.MAX_CONVERSATION_HISTORY.
    rewrite flat_map_turns_length.
    assert (Hs : skipn (length turns - 10) turns ++ [(u, a)]
                 = skipn (length turns - 10) (turns ++ [(u, a)])).
    { rewrite skipn_app. replace (length turns - 10 - length turns) with 0 by lia.
      reflexivity. }
    rewrite Hs, length_skipn, length_app. cbn [length].
    destruct (Nat.le_gt_cases 10 (length turns)) as [Hge|Hlt].
    + replace (2 * (length turns + 1 - (length turns - 10)) - 20) with 2 by lia.
      rewrite skipn_2_turns, skipn_skipn. f_equal. f_equal. lia.
    + replace (2 * (length turns + 1 - (length turns - 10)) - 20) with 0 by lia.
      cbn [skipn]. f_equal. f_equal. lia.
  - intros cm u a. rewrite add_conversation_history. unfold last_items.
    rewrite length_skipn. lia.
Qed.

Lemma build_context_nonempty cm :
  shell_context cm <> [] -> truthy (build_context_for_ai cm) = true.
Proof.
  intro H. rewrite build_context_for_ai_refines. unfold spec_buildAIContext.
  destruct (shell_context cm) as [|e es]; [congruence|]. reflexivity.
Qed.

(** X5.  The request built for a prompt opens with a system message
    exactly when the shell context is not empty; that message carries the
    context summary between the two fixed texts; the whole conversation
    history follows in order and the prompt comes last.  After
    [clear_all] the request is the prompt alone, and after
    [clear_context] no system message is sent. *)
Theorem X5_request_messages :
  forall (cm : ContextManager) (user_msg : str),
    build_messages cm user_msg
    = match shell_context cm with
      | [] => []
      | _ :: _ =>
          [mkMessage (lit "system")
             (SYSTEM_PROMPT_HEAD ++ build_context_for_ai cm ++ SYSTEM_PROMPT_TAIL)]
      end
      ++ conversation_history cm ++ [mkMessage (lit "user") user_msg]
    /\ build_messages (clear_all cm) user_msg = [mkMessage (lit "user") user_msg]
    /\ build_messages (clear_context cm) user_msg
       = conversation_history cm ++ [mkMessage (lit "user") user_msg].
Proof.
  intros cm user_msg. split; [|repeat split].
  unfold build_messages.
  destruct (shell_context cm) as [|e es] eqn:E.
  - unfold build_context_for_ai. rewrite E. reflexivity.
  - rewrite build_context_nonempty by (rewrite E; discriminate). reflexivity.
Qed.

(** ** The context table *)

Lemma output_preview_bounds out :
  length (output_preview out) <= 53
  /\ mem_char NL (output_preview out) = false.
Proof.
  unfold output_preview, replace_char, slice_to. split.
  - rewrite length_map.
    destruct (Nat.ltb_spec 50 (length out)) as [H|H]; [|lia].
    rewrite length_app, length_firstn. change (length (lit "...")) with 3. lia.
  - generalize (if 50 <? length out then firstn 50 out ++ lit "..." else out).
    intro s. induction s as [|c s IH]; [reflexivity|].
    cbn [List.map mem_char existsb]. unfold mem_char in IH. rewrite IH.
    unfold char_eqb. destruct (N.eqb_spec c NL) as [->|Hc].
    + reflexivity.
    + rewrite orb_false_r. apply N.eqb_neq. congruence.
Qed.

Lemma replace_char_absent old new (s : str) :
  mem_char old s = false -> replace_char old new s = s.
Proof.
  unfold replace_char, mem_char. induction s as [|c s IH]; [reflexivity|].
  cbn [existsb List.map]. intro H. apply orb_false_iff in H as [Hc Hs].
  unfold char_eqb in *. rewrite N.eqb_sym, Hc. now rewrite IH.
Qed.

(** The first 50 characters of a preview are those of the output with
    line breaks turned into spaces; what follows is the ellipsis, for an
    output of more than 50 characters, and nothing otherwise. *)
Lemma output_preview_parts out :
  firstn 50 (output_preview out) = replace_char NL SPACE (firstn 50 out)
  /\ skipn 50 (output_preview out) = (if 50 <? length out then lit "..." else []).
Proof.
  unfold output_preview, replace_char, slice_to.
  destruct (Nat.ltb_spec 50 (length out)) as [H|H].
  - rewrite map_app.
    set (shown := List.map (fun c => if char_eqb c NL then SPACE else c) (firstn 50 out)).
    assert (Hlen : length shown = 50).
    { unfold shown. rewrite length_map, length_firstn. lia. }
    split.
    + rewrite firstn_app, Hlen, Nat.sub_diag, firstn_O, app_nil_r.
      apply firstn_all2. lia.
    + rewrite skipn_app, Hlen, Nat.sub_diag, skipn_O.
      rewrite skipn_all2 by lia. reflexivity.
  - split.
    + now rewrite firstn_map.
    + apply skipn_all2. rewrite length_map. exact H.
Qed.

Lemma split_on_two sep (s : str) :
  mem_char sep s = true -> exists w x ws, split_on sep s = w :: x :: ws.
Proof.
  induction s as [|c s IH]; [discriminate|].
  unfold mem_char. cbn [existsb split_on]. unfold char_eqb. rewrite N.eqb_sym.
  destruct (N.eqb c sep) eqn:E.
  - intros _. pose proof (split_on_nonempty sep s) as Hne.
    destruct (split_on sep s) as [|x ws]; [contradiction|]. eauto.
  - cbn [orb]. intro H. destruct (IH H) as (w & x & ws & ->). eauto.
Qed.

(** [s.split(sep)[-1]] is the text after the last separator, and the
    whole text when there is no separator. *)
Lemma split_on_last sep (s : str) :
  (mem_char sep s = false /\ last_item (split_on sep s) = s)
  \/ (exists above, s = above ++ sep :: last_item (split_on sep s)).
Proof.
  unfold last_item. induction s as [|c s IH].
  - left. split; reflexivity.
  - cbn [split_on]. unfold char_eqb. destruct (N.eqb_spec c sep) as [->|Hc].
    + right. pose proof (split_on_nonempty sep s) as Hne.
      destruct IH as [[Hm Hl] | (above & Hs)].
      * exists []. destruct (split_on sep s) as [|x ws]; [contradiction|].
        cbn [app]. change (last ([] :: x :: ws) []) with (last (x :: ws) []).
        now rewrite Hl.
      * exists (sep :: above). destruct (split_on sep s) as [|x ws]; [contradiction|].
        change (last ([] :: x :: ws) []) with (last (x :: ws) []).
        cbn [app]. now rewrite <- Hs.
    + destruct IH as [[Hm Hl] | (above & Hs)].
      * left. rewrite (split_on_clean sep s Hm). split; [|reflexivity].
        unfold mem_char in *. cbn [existsb]. rewrite Hm. unfold char_eqb.
        rewrite N.eqb_sym. apply N.eqb_neq in Hc. now rewrite Hc.
      * right. exists (c :: above).
        assert (Hmem : mem_char sep s = true).
        { rewrite Hs. unfold mem_char. rewrite existsb_app. cbn [existsb].
          unfold char_eqb. rewrite N.eqb_refl. cbn. apply orb_true_r. }
        destruct (split_on_two sep s Hmem) as (w & x & ws & E).
        rewrite E in *.
        change (last ((c :: w) :: x :: ws) []) with (last (w :: x :: ws) []).
        cbn [app]. now rewrite <- Hs.
Qed.

Lemma Forall2_map_right {A B} (f : A -> B) (P : A -> B -> Prop) (l : list A) :
  (forall a, P a (f a)) -> Forall2 P l (List.map f l).
Proof. intro H. induction l as [|a l IH]; constructor; auto. Qed.


(** ** The dispatch of a shell command *)

Lemma startswith_split p s :
  startswith p s = true -> exists rest, s = p ++ rest.
Proof.
  revert s. induction p as [|c p IH]; intros s H; [now exists s|].
  destruct s as [|d s]; [discriminate H|]. cbn [startswith] in H.
  apply andb_true_iff in H as [Hc Hp]. apply char_eqb_eq in Hc. subst d.
  destruct (IH s Hp) as [rest ->]. now exists rest.
Qed.

Lemma contains_split needle hay :
  contains needle hay = true -> exists before after, hay = before ++ needle ++ after.
Proof.
  induction hay as [|c hay IH]; intro H.
  - cbn [contains] in H. rewrite orb_false_r in H.
    destruct (startswith_split _ _ H) as [rest Hr]. exists [], rest. exact Hr.
  - cbn [contains] in H. apply orb_true_iff in H as [H|H].
    + destruct (startswith_split _ _ H) as [rest Hr]. exists [], rest. exact Hr.
    + destruct (IH H) as (before & after & ->). now exists (c :: before), after.
Qed.

(** Two separators in a row leave an empty piece, and not in the first
    place. *)
Lemma split_on_doubled sep before after :
  In [] (tl (split_on sep (before ++ sep :: sep :: after))).
Proof.
  induction before as [|a before IH]; cbn [app split_on].
  - unfold char_eqb. rewrite !N.eqb_refl. cbn [tl]. now left.
  - destruct (char_eqb a sep).
    + cbn [tl]. destruct (split_on sep (before ++ sep :: sep :: after)) as [|w ws];
        [destruct IH | right; exact IH].
    + destruct (split_on sep (before ++ sep :: sep :: after)) as [|w ws];
        [destruct IH | exact IH].
Qed.

Lemma any_part_interactive_false parts :
  any_part_interactive parts = Returned false ->
  Forall (fun part => exists w, first_word (strip part) = Returned w
                                /\ in_names w INTERACTIVE_COMMANDS = false) parts.
Proof.
  induction parts as [|part parts IH]; intro H; [constructor|].
  cbn [any_part_interactive] in H.
  destruct (first_word (strip part)) as [w|] eqn:Ew; [|discriminate H].
  destruct (in_names w INTERACTIVE_COMMANDS) eqn:Ei; [discriminate H|].
  constructor; [now exists w | now apply IH].
Qed.

Lemma mem_char_app c (a b : str) :
  mem_char c (a ++ b) = mem_char c a || mem_char c b.
Proof. unfold mem_char. apply existsb_app. Qed.

(** X7.  [is_interactive_command] answers False only when the command
    has a first word, and, if the command holds a pipe sign, every
    segment between pipe signs has a first word too, none of them an
    interactive command.  So for a command that holds two pipe signs in a
    row it never answers False: it answers True or raises [IndexError],
    and [execute_shell_command] never hands such a command to the regular
    handler. *)
Theorem X7_double_pipe_never_regular :
  forall (cmd : str),
    (is_interactive_command cmd = Returned false ->
       (exists w, first_word (strip cmd) = Returned w
                  /\ in_names w INTERACTIVE_COMMANDS = false)
       /\ (mem_char PIPE cmd = true ->
           Forall (fun part => exists w, first_word (strip part) = Returned w
                                         /\ in_names w INTERACTIVE_COMMANDS = false)
                  (split_on PIPE cmd)))
    /\ (contains [PIPE; PIPE] cmd = true ->
        is_interactive_command cmd <> Returned false
        /\ execute_shell_command cmd <> Regular).
Proof.
  intro cmd.
  assert (Hfalse : is_interactive_command cmd = Returned false ->
            (exists w, first_word (strip cmd) = Returned w
                       /\ in_names w INTERACTIVE_COMMANDS = false)
            /\ (mem_char PIPE cmd = true ->
                Forall (fun part => exists w, first_word (strip part) = Returned w
                                              /\ in_names w INTERACTIVE_COMMANDS = false)
                       (split_on PIPE cmd))).
  { unfold is_interactive_command.
    destruct (first_word (strip cmd)) as [w|]; [|discriminate].
    destruct (in_names w INTERACTIVE_COMMANDS) eqn:Ei; [discriminate|].
    intro H. split; [now exists w|]. intro Hp. rewrite Hp in H.
    now apply any_part_interactive_false. }
  split; [exact Hfalse|]. intro Hd.
  assert (Hno : is_interactive_command cmd <> Returned false).
  { intro H. destruct (Hfalse H) as [_ Hparts].
    destruct (contains_split _ _ Hd) as (before & after & ->).
    assert (Hp : mem_char PIPE (before ++ [PIPE; PIPE] ++ after) = true).
    { rewrite mem_char_app. cbn. apply orb_true_r. }
    specialize (Hparts Hp). rewrite Forall_forall in Hparts.
    destruct (Hparts [ ]) as (w & Hw & _); [|discriminate Hw].
    pose proof (split_on_doubled PIPE before after) as Hin.
    cbn [app] in *. destruct (split_on PIPE (before ++ PIPE :: PIPE :: after));
      [destruct Hin | now right]. }
  split; [exact Hno|]. unfold execute_shell_command.
  repeat match goal with |- (if ?c then _ else _) <> _ => destruct c; [discriminate|] end.
  destruct (is_interactive_command cmd) as [[|]|]; [discriminate | congruence | discriminate].
Qed.

Lemma X7_double_pipe_never_regular_witness :
  contains [PIPE; PIPE] (lit "make || echo failed") = true
  /\ is_interactive_command (lit "make || echo failed") <> Returned false
  /\ execute_shell_command (lit "make || echo failed") <> Regular.
Proof.
  assert (H : contains [PIPE; PIPE] (lit "make || echo failed") = true)
    by (vm_compute; reflexivity).
  destruct (X7_double_pipe_never_regular (lit "make || echo failed")) as [_ H2].
  exact (conj H (H2 H)).
Defined.

(** *** What [strip] leaves *)

Lemma lstrip_head s c rest : lstrip s = c :: rest -> isspace c = false.
Proof.
  induction s as [|a s IH]; cbn [lstrip]; [discriminate|].
  destruct (isspace a) eqn:Ea; [exact IH|]. intro H. injection H as <- _. exact Ea.
Qed.

Lemma lstrip_keeps s :
  existsb (fun c => negb (isspace c)) s = true -> lstrip s <> [].
Proof.
  induction s as [|a s IH]; cbn [existsb lstrip]; [discriminate|].
  destruct (isspace a); cbn [negb orb]; [exact IH | discriminate].
Qed.

Lemma lstrip_suffix s : exists spaces, s = spaces ++ lstrip s.
Proof.
  induction s as [|a s [spaces IH]]; [now exists []|]. cbn [lstrip].
  destruct (isspace a); [|now exists []].
  exists (a :: spaces). cbn [app]. now rewrite <- IH.
Qed.

(** A stripped text that is not empty ends with a character that is not
    whitespace. *)
Lemma strip_last s :
  strip s <> [] -> isspace (last (strip s) 0%N) = false.
Proof.
  unfold strip, rstrip. intro H.
  destruct (lstrip (rev (lstrip s))) as [|c rest] eqn:E; [now destruct H|].
  cbn [rev]. rewrite last_last. now apply (lstrip_head _ _ _ E).
Qed.

Lemma strip_keeps s :
  existsb (fun c => negb (isspace c)) s = true -> strip s <> [].
Proof.
  intro H. unfold strip, rstrip.
  assert (H1 : lstrip s <> []) by now apply lstrip_keeps.
  destruct (lstrip s) as [|c u] eqn:E; [congruence|].
  assert (Hc : isspace c = false) by now apply (lstrip_head _ _ _ E).
  assert (H2 : lstrip (rev (c :: u)) <> []).
  { apply lstrip_keeps. cbn [rev]. rewrite existsb_app. cbn [existsb].
    rewrite Hc. cbn. apply orb_true_r. }
  intro Hr. apply H2. apply (f_equal (@rev char)) in Hr.
  rewrite rev_involutive in Hr. exact Hr.
Qed.

Lemma last_exists (P : char -> bool) (s : str) :
  s <> [] -> P (last s 0%N) = true -> existsb P s = true.
Proof.
  intros Hne H. destruct (exists_last Hne) as (init & c & ->).
  rewrite last_last in H. rewrite existsb_app. cbn [existsb]. rewrite H.
  cbn. apply orb_true_r.
Qed.

(** The operand of a command that, once stripped, begins with a word and
    a space: it is never empty. *)
Lemma operand_not_empty (word : str) (cmd : str) :
  word <> [] ->
  isspace (last word 0%N) = true ->
  startswith word (strip cmd) = true ->
  strip (slice_from (Z.of_nat (length word)) (strip cmd)) <> [].
Proof.
  intros Hw Hsp Hs. destruct (startswith_split _ _ Hs) as [rest Hr].
  assert (Hslice : slice_from (Z.of_nat (length word)) (strip cmd) = rest).
  { rewrite Hr. unfold slice_from.
    destruct (Z.ltb_spec (Z.of_nat (length word)) 0) as [H|_]; [lia|].
    rewrite length_app.
    replace (Z.to_nat (Z.min (Z.of_nat (length word))
                         (Z.of_nat (length word + length rest))))
      with (length word + 0) by lia.
    rewrite skipn_app, Nat.add_0_r, skipn_all.
    replace (length word - length word) with 0 by lia. reflexivity. }
  rewrite Hslice.
  assert (Hne : strip cmd <> []).
  { rewrite Hr. destruct word; [congruence | discriminate]. }
  pose proof (strip_last cmd Hne) as Hlast. rewrite Hr in Hlast.
  assert (Hrest : rest <> []).
  { intros ->. rewrite app_nil_r in Hlast. congruence. }
  apply strip_keeps. apply last_exists; [exact Hrest|].
  destruct (exists_last Hrest) as (init & c & ->).
  rewrite app_assoc, last_last in Hlast. rewrite last_last, Hlast. reflexivity.
Qed.

(** X8.  Whenever [execute_shell_command] calls the handler of [cd] or
    of [source], the operand the handler computes is not empty: the
    handler of [cd] never goes to the home directory for want of an
    operand, and the handler of [source] never reports a missing
    operand. *)
Theorem X8_cd_and_source_operands :
  forall (cmd : str),
    match execute_shell_command cmd with
    | ChangeDirectory target =>
        target = CdTo (strip (slice_from 3 (strip cmd)))
        /\ strip (slice_from 3 (strip cmd)) <> []
    | Source request =>
        request = SourceFile (strip (slice_from 7 (strip cmd)))
        /\ strip (slice_from 7 (strip cmd)) <> []
    | _ => True
    end.
Proof.
  intro cmd. unfold execute_shell_command.
  destruct (negb (truthy (strip cmd))); [exact I|].
  destruct (handle_environment_commands cmd); [exact I|].
  destruct (str_eqb (strip cmd) (lit "exit")); [exact I|].
  destruct (str_eqb (strip cmd) (lit "clear")); [exact I|].
  destruct (startswith (lit "cd ") (strip cmd)) eqn:Ecd.
  { assert (H : strip (slice_from 3 (strip cmd)) <> []).
    { apply (operand_not_empty (lit "cd ") cmd); [discriminate | reflexivity | exact Ecd]. }
    unfold _handle_cd_command. cbv zeta.
    destruct (strip (slice_from 3 (strip cmd))); [congruence|].
    split; [reflexivity | discriminate]. }
  destruct (startswith (lit "source ") (strip cmd)) eqn:Esrc.
  { assert (H : strip (slice_from 7 (strip cmd)) <> []).
    { apply (operand_not_empty (lit "source ") cmd);
        [discriminate | reflexivity | exact Esrc]. }
    unfold _handle_source_command. cbv zeta.
    destruct (strip (slice_from 7 (strip cmd))); [congruence|].
    split; [reflexivity | discriminate]. }
  destruct (str_eqb (strip cmd) (lit "deactivate")); [exact I|].
  destruct (_ || _); [exact I|].
  destruct (is_interactive_command cmd) as [[|]|]; exact I.
Qed.

(** ** The search path after [deactivate] *)

Lemma posix_join_bin_not_empty virtual_env :
  startswith (posix_join virtual_env (lit "bin")) [] = false.
Proof.
  unfold posix_join. change (startswith [SLASH] (lit "bin")) with false. cbv iota.
  destruct (negb (truthy virtual_env) || endswith [SLASH] virtual_env);
    destruct virtual_env; reflexivity.
Qed.

(** X9.  The search path [deactivate] writes back is the old one without
    the components that begin with the [bin] directory of the
    environment: read again component by component, it holds the other
    components in their order and nothing else, and no component of it
    begins with that directory.  A component that only begins like the
    directory, such as a sibling whose name continues it, is removed as
    well. *)
Theorem X9_deactivate_filters_path :
  forall (virtual_env current_path : str),
    let venv_bin := posix_join virtual_env (lit "bin") in
    let kept := filter (fun part => negb (startswith venv_bin part))
                       (split_on COLON current_path) in
    (kept <> [] -> split_on COLON (deactivated_path virtual_env current_path) = kept)
    /\ (kept = [] -> deactivated_path virtual_env current_path = [])
    /\ Forall (fun part => startswith venv_bin part = false)
              (split_on COLON (deactivated_path virtual_env current_path))
    /\ (forall part,
          In part (split_on COLON (deactivated_path virtual_env current_path)) ->
          part = [] \/ In part (split_on COLON current_path)).
Proof.
  intros virtual_env current_path venv_bin kept.
  assert (Hclean : Forall (fun piece => mem_char COLON piece = false) kept).
  { apply Forall_forall. intros part Hin. apply filter_In in Hin as [Hin _].
    pose proof (split_on_pieces COLON current_path) as Hp.
    rewrite Forall_forall in Hp. now apply Hp. }
  assert (Hkept : Forall (fun part => startswith venv_bin part = false) kept).
  { apply Forall_forall. intros part Hin. apply filter_In in Hin as [_ Hf].
    now apply negb_true_iff in Hf. }
  assert (Hsplit : kept <> [] ->
            split_on COLON (deactivated_path virtual_env current_path) = kept).
  { intro Hne. unfold deactivated_path. now apply split_on_join. }
  assert (Hempty : kept = [] -> deactivated_path virtual_env current_path = []).
  { intro He. unfold deactivated_path. fold venv_bin. fold kept. now rewrite He. }
  split; [exact Hsplit|]. split; [exact Hempty|].
  destruct kept as [|k ks] eqn:Ek.
  - rewrite (Hempty eq_refl). cbn [split_on]. split.
    + constructor; [apply posix_join_bin_not_empty | constructor].
    + intros part [<-|[]]. now left.
  - rewrite (Hsplit ltac:(discriminate)). split; [exact Hkept|].
    intros part Hin. right.
    assert (Hin' : In part (filter (fun part => negb (startswith venv_bin part))
                              (split_on COLON current_path))).
    { fold kept. rewrite Ek. exact Hin. }
    now apply filter_In in Hin' as [Hin' _].
Qed.

(** ** Exchanges and resumes, as a whole *)

Section ExchangeFacts.

Variable json_loads : str -> loads_outcome.
Variable interp_msg : interp_fault -> str.
Variable console_markup : str -> option str.

Local Abbreviation one_exchange :=
  (stream_ai_response json_loads interp_msg console_markup).
Local Abbreviation one_resume :=
  (resume_cancelled_stream json_loads interp_msg console_markup).
Local Abbreviation producer := (create_api_streaming_generator json_loads interp_msg).
Local Abbreviation told := (reported interp_msg console_markup).

(** The whole of [resume_cancelled_stream] once the panel naming the
    prompt has been printed, by the way the pull loop is left. *)
Lemma resume_shell_unfold sh x saved :
  cancelled_stream_state (streaming_ui sh) = Some saved ->
  console_markup (resume_stream_panel (snap_user_message saved)) = None ->
  one_resume sh x
  = let started := resume_seeded (streaming_ui sh) saved in
    let src := with_interrupt (ctrl_c x) (producer (snap_messages saved) (http x)) in
    let r := fst (pull_loop (markdown_renderer started) src) in
    match snd (pull_loop (markdown_renderer started) src) with
    | Exhausted =>
        (Returns (Some (full_content r)),
         mkShell (mkUI r None)
                 (if is_answer (full_content r)
                  then add_conversation (context_manager sh) (snap_user_message saved)
                         (full_content r)
                  else context_manager sh))
    | Interrupted =>
        (Returns (Some RESUME_CANCELLED),
         mkShell (mkUI r (Some (mkCancelled (snap_user_message saved) (full_content r)
                                  (snap_messages saved) (now_iso x) (word_count r))))
                 (context_manager sh))
    | Faulted e =>
        (match console_markup (CROSS_MARK ++ lit " Resume Error: " ++ str_exn interp_msg e) with
         | None =>
             Returns (Some (CROSS_MARK ++ lit " Resume Error: " ++ str_exn interp_msg e))
         | Some msg =>
             match told (lit " Resume error: ") (MarkupError msg) with
             | Returns error_msg => Returns (Some error_msg)
             | Raises e' => Raises e'
             end
         end,
         mkShell (mkUI r (Some saved)) (context_manager sh))
    end.
Proof.
  intros Hs Hpanel. unfold resume_cancelled_stream. rewrite Hs, Hpanel.
  unfold stream_ai_response_with_resume, has_cancelled_stream. rewrite Hs.
  rewrite (resume_unfold interp_msg console_markup (streaming_ui sh) saved (now_iso x) _ Hs).
  cbv zeta.
  change (cancelled_stream_state (resume_seeded (streaming_ui sh) saved))
    with (cancelled_stream_state (streaming_ui sh)).
  rewrite Hs.
  destruct (pull_loop _ _) as [r how]. cbn [fst snd].
  destruct how as [| |e].
  - destruct (is_answer (full_content r)); reflexivity.
  - reflexivity.
  - destruct (console_markup (CROSS_MARK ++ lit " Resume Error: " ++ str_exn interp_msg e)).
    + reflexivity.
    + rewrite sentinel_not_answer. reflexivity.
Qed.

Lemma resume_shell_panel_fails sh x saved msg :
  cancelled_stream_state (streaming_ui sh) = Some saved ->
  console_markup (resume_stream_panel (snap_user_message saved)) = Some msg ->
  one_resume sh x = (Raises (MarkupError msg), sh).
Proof.
  intros Hs Hpanel. unfold resume_cancelled_stream. rewrite Hs, Hpanel. reflexivity.
Qed.

(** X10.  A saved cancelled state always counts the words of the content
    it saves: if that holds of the state saved before an exchange or a
    resume, it holds of the state saved after it, and it holds of the
    empty state.  So the word count [get_cancelled_state_info] reports is
    the number of whitespace-separated words of the saved content. *)
Theorem X10_saved_word_count :
  forall (sh : HybridShell) (user_msg : str) (x : Exchange),
    snapshot_consistent (cancelled_stream_state (streaming_ui sh)) ->
    snapshot_consistent
      (cancelled_stream_state (streaming_ui (snd (one_exchange sh user_msg x))))
    /\ snapshot_consistent
         (cancelled_stream_state (streaming_ui (snd (one_resume sh x))))
    /\ (forall ui info saved,
          snapshot_consistent (cancelled_stream_state ui) ->
          get_cancelled_state_info ui = Some info ->
          cancelled_stream_state ui = Some saved ->
          info_partial_word_count info = length (split (snap_partial_content saved))
          /\ info_user_message info = snap_user_message saved).
Proof.
  intros sh user_msg x Hinv. split; [|split].
  - rewrite (exchange_unfold json_loads interp_msg console_markup sh user_msg x).
    cbv zeta. set (src := with_interrupt _ _).
    pose proof (pull_loop_word_count (reset (markdown_renderer (streaming_ui sh))) src
                  eq_refl) as Hw.
    destruct (pull_loop _ src) as [r how]. cbn [fst snd] in *.
    destruct how as [| |e].
    + destruct (str_eqb (full_content r) RESPONSE_CANCELLED); [exact Hw | exact Hinv].
    + exact Hw.
    + exact Hinv.
  - destruct (cancelled_stream_state (streaming_ui sh)) as [saved|] eqn:Es.
    + destruct (console_markup (resume_stream_panel (snap_user_message saved)))
        as [msg|] eqn:Ep.
      * rewrite (resume_shell_panel_fails sh x saved msg Es Ep). cbn [snd].
        now rewrite Es.
      * rewrite (resume_shell_unfold sh x saved Es Ep). cbv zeta.
        set (started := resume_seeded (streaming_ui sh) saved).
        set (src := with_interrupt _ _).
        pose proof (pull_loop_word_count (markdown_renderer started) src eq_refl) as Hw.
        destruct (pull_loop (markdown_renderer started) src) as [r how].
        cbn [fst snd] in *.
        destruct how as [| |e]; [exact I | exact Hw | exact Hinv].
    + unfold resume_cancelled_stream. rewrite Es. cbn [snd]. now rewrite Es.
  - intros ui info saved Hc Hi Hs. unfold get_cancelled_state_info in Hi.
    rewrite Hs in Hi, Hc. injection Hi as <-. split; [exact Hc | reflexivity].
Qed.


(** X12.  Cancel, resume, resume again.  An exchange returned the
    cancellation mark, and the stream a resume would reopen runs to its
    end with the fragments [chunks].  The resume first prints a panel
    that names the prompt.  If the panel cannot be read as console markup
    the resume raises [MarkupError] there: nothing is reopened and the
    saved state stays.  Otherwise the request reopened is the one the
    cancelled exchange had built, the response is the text saved at
    cancellation followed by the new fragments, the saved state is
    cleared, and the turn recorded, if the response is an answer, pairs
    that response with the prompt of the cancelled exchange; a second
    resume then does nothing. *)
Theorem X12_cancel_resume_resume :
  forall (sh : HybridShell) (user_msg : str) (x1 x2 : Exchange) (chunks : list str),
    fst (one_exchange sh user_msg x1) = Returns RESPONSE_CANCELLED ->
    with_interrupt (ctrl_c x2)
      (producer (build_messages (context_manager sh) user_msg) (http x2))
    = fragments chunks ->
    let sh1 := snd (one_exchange sh user_msg x1) in
    let P := full_content (markdown_renderer (streaming_ui sh1)) in
    let sh2 := snd (one_resume sh1 x2) in
    match console_markup (resume_stream_panel user_msg) with
    | Some msg =>
        one_resume sh1 x2 = (Raises (MarkupError msg), sh1)
        /\ has_cancelled_stream (streaming_ui sh1) = true
    | None =>
        fst (one_resume sh1 x2) = Returns (Some (P ++ concat chunks))
        /\ has_cancelled_stream (streaming_ui sh2) = false
        /\ context_manager sh2
           = (if is_answer (P ++ concat chunks)
              then add_conversation (context_manager sh) user_msg (P ++ concat chunks)
              else context_manager sh)
        /\ (forall x3, one_resume sh2 x3 = (Returns None, sh2))
    end.
Proof.
  intros sh user_msg x1 x2 chunks H1 H2.
  destruct (exchange_cancelled_saved json_loads interp_msg console_markup sh user_msg x1 H1)
    as (r & Hsh1 & _).
  cbv zeta. rewrite Hsh1. cbn [streaming_ui markdown_renderer].
  set (saved := mkCancelled user_msg (full_content r)
                  (build_messages (context_manager sh) user_msg)
                  (now_iso x1) (word_count r)).
  destruct (console_markup (resume_stream_panel user_msg)) as [msg|] eqn:Ep.
  - split; [|reflexivity].
    apply (resume_shell_panel_fails (mkShell (mkUI r (Some saved)) (context_manager sh))
             x2 saved msg eq_refl Ep).
  - rewrite (resume_shell_unfold (mkShell (mkUI r (Some saved)) (context_manager sh))
               x2 saved eq_refl Ep).
    cbv zeta. cbn [snap_messages saved snap_user_message context_manager].
    rewrite H2, <- (app_nil_r (fragments chunks)), pull_loop_fragments.
    cbn [pull_loop fst snd]. rewrite add_chunks_full_content.
    cbn [resume_seeded markdown_renderer with_renderer full_content
         snap_partial_content saved streaming_ui context_manager].
    repeat split.
Qed.

End ExchangeFacts.

Lemma X10_saved_word_count_witness :
  snapshot_consistent (cancelled_stream_state (streaming_ui new_shell))
  /\ snapshot_consistent (cancelled_stream_state (streaming_ui cancelled_shell))
  /\ get_cancelled_state_info (streaming_ui cancelled_shell)
     = Some (mkInfo QUESTION 4 (lit "2026-01-01T12:00:00")).
Proof.
  assert (H : snapshot_consistent (cancelled_stream_state (streaming_ui new_shell)))
    by exact I.
  destruct (X10_saved_word_count sample_json_loads sample_interp_msg sample_console_markup
              new_shell QUESTION answer_exchange H) as (H1 & _ & _).
  split; [exact H|]. split; [exact H1|]. vm_compute. reflexivity.
Defined.

Lemma X12_cancel_resume_resume_witness :
  fst (stream_ai_response sample_json_loads sample_interp_msg sample_console_markup
         new_shell QUESTION answer_exchange) = Returns RESPONSE_CANCELLED
  /\ with_interrupt None
       (create_api_streaming_generator sample_json_loads sample_interp_msg
          (build_messages (context_manager new_shell) QUESTION) (http answer_exchange))
     = fragments [lit "The answer "; lit "is 4"; lit ", as you know."]
  /\ sample_console_markup (resume_stream_panel QUESTION) = None
  /\ has_cancelled_stream
       (streaming_ui
          (snd (resume_cancelled_stream sample_json_loads sample_interp_msg
                  sample_console_markup cancelled_shell
                  (mkExchange (http answer_exchange) None (lit "2026-01-01T12:05:00")))))
     = false.
Proof.
  assert (H1 : fst (stream_ai_response sample_json_loads sample_interp_msg
                      sample_console_markup new_shell QUESTION answer_exchange)
               = Returns RESPONSE_CANCELLED)
    by (vm_compute; reflexivity).
  assert (H2 : with_interrupt
                 (ctrl_c (mkExchange (http answer_exchange) None (lit "2026-01-01T12:05:00")))
                 (create_api_streaming_generator sample_json_loads sample_interp_msg
                    (build_messages (context_manager new_shell) QUESTION)
                    (http (mkExchange (http answer_exchange) None
                             (lit "2026-01-01T12:05:00"))))
               = fragments [lit "The answer "; lit "is 4"; lit ", as you know."])
    by (vm_compute; reflexivity).
  assert (Hp : sample_console_markup (resume_stream_panel QUESTION) = None)
    by (vm_compute; reflexivity).
  pose proof (X12_cancel_resume_resume sample_json_loads sample_interp_msg
                sample_console_markup new_shell QUESTION answer_exchange
                (mkExchange (http answer_exchange) None (lit "2026-01-01T12:05:00"))
                [lit "The answer "; lit "is 4"; lit ", as you know."] H1 H2) as H.
  cbv zeta in H. rewrite Hp in H. destruct H as (_ & H4 & _).
  exact (conj H1 (conj H2 (conj Hp H4))).
Defined.

Lemma pull_loop_grows r src :
  exists more, full_content (fst (pull_loop r src)) = full_content r ++ more.
Proof.
  revert r. induction src as [|ev src IH]; intro r.
  - exists []. cbn. now rewrite app_nil_r.
  - destruct ev as [v|e|]; try (exists []; cbn; now rewrite app_nil_r).
    destruct v; try (exists []; cbn; now rewrite app_nil_r).
    cbn [pull_loop]. destruct (IH (add_chunk r s)) as [more Hm].
    exists (s ++ more). rewrite Hm, add_chunk_full_content. now rewrite app_assoc.
Qed.

Section ResumeFacts.

Variable json_loads : str -> loads_outcome.
Variable interp_msg : interp_fault -> str.
Variable console_markup : str -> option str.

Local Abbreviation shell_resume :=
  (resume_cancelled_stream json_loads interp_msg console_markup).


End ResumeFacts.

(** The prompt of the scenario with a closing tag in it.  The exchange is
    interrupted after two fragments: the state is saved, then the
    notification that quotes the prompt cannot be read as markup, nor can
    the error line printed for that, which quotes the tag again; the
    exception leaves [stream_ai_response].  A resume then raises at its
    first panel and leaves the saved state as it is. *)
Example cancelled_with_tagged_prompt :
  let cancelled :=
    stream_ai_response sample_json_loads sample_interp_msg sample_console_markup
      new_shell TAGGED_QUESTION answer_exchange in
  let resumed :=
    resume_cancelled_stream sample_json_loads sample_interp_msg sample_console_markup
      (snd cancelled) (mkExchange (http answer_exchange) None (lit "2026-01-01T12:05:00")) in
  fst cancelled
  = Raises (MarkupError
              (lit "closing tag '[/b]' at position 37 doesn't match any open tag"))
  /\ cancelled_stream_state (streaming_ui (snd cancelled))
     = Some (mkCancelled TAGGED_QUESTION (lit "The answer is 4")
               [mkMessage (lit "user") TAGGED_QUESTION] (lit "2026-01-01T12:00:00") 4)
  /\ fst resumed
     = Raises (MarkupError
                 (lit "closing tag '[/b]' at position 39 doesn't match any open tag"))
  /\ snd resumed = snd cancelled.
Proof. vm_compute. repeat split; reflexivity. Qed.


(** ** A bound of zero *)

Lemma add_chunk_store_unbounded r chunk :
  max_visible_lines r = 0%Z ->
  rolling_buffer (add_chunk r chunk) = rolling_buffer r ++ completed_by r chunk.
Proof.
  intro H. rewrite add_chunk_rolling_buffer. cbv zeta. rewrite H.
  destruct (_ >? _)%Z; [|reflexivity].
  unfold slice_from. cbn [Z.opp Z.ltb Z.compare].
  replace (Z.to_nat (Z.min 0 (Z.of_nat (length (rolling_buffer r ++ completed_by r chunk)))))
    with 0 by lia.
  reflexivity.
Qed.

Lemma add_chunk_holds_all r chunk :
  max_visible_lines r = 0%Z ->
  holds_all_lines r -> holds_all_lines (add_chunk r chunk).
Proof.
  intros Hz [Hcur Hbuf]. unfold holds_all_lines.
  rewrite add_chunk_full_content, add_chunk_current_line,
    add_chunk_store_unbounded, completed_by_lines by exact Hz.
  rewrite (split_on_grow NL (full_content r) chunk), <- Hcur, <- Hbuf.
  pose proof (split_on_nonempty NL (current_line r ++ chunk)) as Hne.
  destruct (exists_last Hne) as (init & final & ->).
  rewrite (app_assoc (rolling_buffer r)), !last_last, !removelast_last.
  split; reflexivity.
Qed.

(** X14.  With [max_visible_lines = 0] nothing is ever trimmed: after any
    fragments fed to a reset buffer the store holds every completed line
    of the text, and the lines of the live view are all of them followed
    by the line in progress, if any. *)
Theorem X14_zero_bound_keeps_everything :
  forall (r0 : LiveMarkdownStreamRenderer) (chunks : list str),
    max_visible_lines r0 = 0%Z ->
    let r := add_chunks (reset r0) chunks in
    rolling_buffer r = removelast (split_on NL (concat chunks))
    /\ current_line r = last (split_on NL (concat chunks)) []
    /\ display_lines r
       = rolling_buffer r
         ++ (if truthy (current_line r) then [current_line r ++ [CURSOR]] else []).
Proof.
  intros r0 chunks Hz r.
  assert (Hall : forall cs q, max_visible_lines q = 0%Z -> holds_all_lines q ->
                              holds_all_lines (add_chunks q cs)).
  { induction cs as [|c cs IH]; intros q Hq Hh; [exact Hh|].
    cbn [add_chunks fold_left]. apply IH; [now rewrite add_chunk_max|].
    now apply add_chunk_holds_all. }
  destruct (Hall chunks (reset r0) Hz) as [Hcur Hbuf]; [split; reflexivity|].
  rewrite reset_add_chunks_content in Hcur, Hbuf. fold r in Hcur, Hbuf.
  split; [exact Hbuf|]. split; [exact Hcur|].
  unfold display_lines.
  assert (Hm : max_visible_lines r = 0%Z).
  { unfold r. rewrite add_chunks_max. exact Hz. }
  rewrite Hm. unfold slice_from. cbn [Z.opp Z.ltb Z.compare].
  destruct (truthy (current_line r)).
  - match goal with |- skipn (Z.to_nat (Z.min 0 ?n)) _ = _ =>
      replace (Z.to_nat (Z.min 0 n)) with 0 by lia end. reflexivity.
  - match goal with |- skipn (Z.to_nat (Z.min 0 ?n)) _ = _ =>
      replace (Z.to_nat (Z.min 0 n)) with 0 by lia end.
    cbn [skipn]. now rewrite app_nil_r.
Qed.

Lemma X14_zero_bound_keeps_everything_witness :
  max_visible_lines (new_renderer 0) = 0%Z
  /\ get_streaming_content (add_chunks (reset (new_renderer 0)) scenario_fragments)
     = lit "Hello world" ++ [NL] ++ lit "second line" ++ [CURSOR].
Proof.
  assert (H : max_visible_lines (new_renderer 0) = 0%Z) by reflexivity.
  destruct (X14_zero_bound_keeps_everything (new_renderer 0) scenario_fragments H)
    as (_ & _ & H3).
  split; [exact H|]. unfold get_streaming_content. rewrite H3.
  vm_compute. reflexivity.
Defined.
